(** * The todo application: model, form and views

    A shallow embedding of [todos/models.py], [todos/forms.py] and
    [todos/views.py].  The three files are declarative Django code: the
    behaviour of a field, of a model form and of a generic view is the
    framework's, and is written out here where a property depends on it
    (each such definition names the framework function it follows).

    - text is a Python [str]: a list of Unicode code points;
    - a date is a day number, a timestamp a number of microseconds;
    - the table of the [Todo] model is a finite map from primary key to row,
      together with the counter of the auto-increment key;
    - [timezone.now()] reads a clock: the n-th reading of a run is
      [now_at n], and the world counts the readings made so far;
    - a view runs in a state monad over the world, and raises [Http404]. *)

From stdpp Require Import gmap list sorting strings.
From Stdlib Require Import ZArith Lia Ascii String.

Local Open Scope Z_scope.

(** ** Text *)

Abbreviation str := (list N).

(** The code points of an ASCII literal. *)
Fixpoint py (s : string) : str :=
  match s with
  | EmptyString => []
  | String c s' => N_of_ascii c :: py s'
  end.

(** [str.isspace] on one code point: the white space table of CPython. *)
Definition isspace (c : N) : bool :=
  ((9 <=? c) && (c <=? 13) || (28 <=? c) && (c <=? 32) || (c =? 133) ||
   (c =? 160) || (c =? 5760) || (8192 <=? c) && (c <=? 8202) ||
   (c =? 8232) || (c =? 8233) || (c =? 8239) || (c =? 8287) ||
   (c =? 12288))%N.

Fixpoint lstrip (s : str) : str :=
  match s with
  | [] => []
  | c :: s' => if isspace c then lstrip s' else s
  end.

Definition rstrip (s : str) : str := reverse (lstrip (reverse s)).

(** [str.strip()] without argument. *)
Definition strip (s : str) : str := rstrip (lstrip s).

(** ['\x00' in s] *)
Definition has_null (s : str) : bool := bool_decide (0%N ∈ s).

(** ** Dates and timestamps *)

Abbreviation date := Z (only parsing).
Abbreviation datetime := Z (only parsing).

Definition usec_per_day : Z := 86400000000.

(** [datetime.date()]: the day a timestamp falls on. *)
Definition date_of (t : datetime) : date := t `div` usec_per_day.

(** ** models.py *)

(** The columns of a [Todo] row other than its primary key, which is the key
    of the table. [is_overdue] is a property, not a column. *)
Record Todo := mkTodo {
  title : str;
  description : str;
  due_date : option date;
  is_resolved : bool;
  created_at : datetime;
  updated_at : datetime
}.

(** [CharField(max_length=200)] *)
Definition title_max_length : nat := 200.

(** ** The world a request runs in *)

Record World := mkWorld {
  rows : gmap Z Todo;     (* the table, by primary key *)
  last_pk : Z;            (* the last key the sequence handed out *)
  ticks : nat             (* clock readings made so far *)
}.

(** What is persistent: the table and its key sequence. *)
Definition store (w : World) : gmap Z Todo * Z := (rows w, last_pk w).

Definition empty_world : World := mkWorld ∅ 0 0.

Inductive outcome (A : Type) : Type :=
| Done (a : A)
| Http404.
Arguments Done {A} a.
Arguments Http404 {A}.

Definition M (A : Type) : Type := World → outcome A * World.

Definition ret {A} (a : A) : M A := λ w, (Done a, w).

Definition bind {A B} (m : M A) (k : A → M B) : M B :=
  λ w, match m w with
       | (Done a, w') => k a w'
       | (Http404, w') => (Http404, w')
       end.

Definition raise_Http404 {A} : M A := λ w, (Http404, w).

Notation "'let*' x := m 'in' k" := (bind m (λ x, k))
  (at level 10, x name, m at level 100, k at level 200, only parsing).

(** ** forms.py *)

(** The fields of [TodoForm.Meta.fields], in that order. *)
Inductive Field := f_title | f_description | f_due_date | f_is_resolved.

Inductive ErrorCode :=
| required | max_length | null_characters_not_allowed | invalid.

#[global] Instance Field_eq_dec : EqDecision Field.
Proof. solve_decision. Defined.
#[global] Instance ErrorCode_eq_dec : EqDecision ErrorCode.
Proof. solve_decision. Defined.

(** What the date widget received: nothing (the key is absent or its value
    is the empty string), a text that parses to a date, or one that does not. *)
Inductive DateInput := DateOmitted | DateValue (d : date) | DateMalformed.

#[global] Instance DateInput_eq_dec : EqDecision DateInput.
Proof. solve_decision. Defined.

(** The data a form is bound to. [None] is a key absent from the POST data;
    for the checkbox, [Some b] is a submitted value that reads as [b]. *)
Record FormData := mkFormData {
  data_title : option str;
  data_description : option str;
  data_due_date : DateInput;
  data_is_resolved : option bool
}.

(** [form.cleaned_data], and the editable attributes of a model instance. *)
Record Fields := mkFields {
  c_title : str;
  c_description : str;
  c_due_date : option date;
  c_is_resolved : bool
}.

(** [form.errors]: the error codes, by field. *)
Abbreviation Errors := (list (Field * ErrorCode)).

Definition has_error (f : Field) (errs : Errors) : Prop := ∃ c, (f, c) ∈ errs.

(** [forms.CharField.to_python] with [strip=True], the default: an absent
    value is the empty string, a present one is stripped. *)
Definition CharField_to_python (value : option str) : str :=
  match value with
  | None => []
  | Some s => strip s
  end.

(** [MaxLengthValidator(limit)]: an error when [len(value) > limit]. *)
Definition MaxLengthValidator (limit : nat) (value : str) : list ErrorCode :=
  if decide (limit < List.length value)%nat then [max_length] else [].

Definition ProhibitNullCharactersValidator (value : str) : list ErrorCode :=
  if has_null value then [null_characters_not_allowed] else [].

(** [forms.Field.clean] of a [CharField]: [to_python], then [validate] (a
    required field refuses the empty value), then [run_validators] (which
    skips the empty value and gathers the errors of every validator). *)
Definition CharField_clean (is_required : bool) (limit : option nat)
    (value : option str) : list ErrorCode + str :=
  let v := CharField_to_python value in
  if decide (v = []) then (if is_required then inl [required] else inr v)
  else
    match from_option (λ n, MaxLengthValidator n v) [] limit
          ++ ProhibitNullCharactersValidator v with
    | [] => inr v
    | errs => inl errs
    end.

(** [forms.DateField.clean] with [required=False]. *)
Definition DateField_clean (value : DateInput) : list ErrorCode + option date :=
  match value with
  | DateOmitted => inr None
  | DateValue d => inr (Some d)
  | DateMalformed => inl [invalid]
  end.

(** [CheckboxInput.value_from_datadict] and [forms.BooleanField.clean] with
    [required=False]: a box absent from the data is unchecked. *)
Definition BooleanField_clean (value : option bool) : bool := default false value.

Definition field_errors {A} (f : Field) (r : list ErrorCode + A) : Errors :=
  match r with
  | inl codes => (λ c, (f, c)) <$> codes
  | inr _ => []
  end.

(** [TodoForm(data).full_clean()]: every field is cleaned, and the form is
    valid when no field has an error.  The form fields are those Django
    derives from the model fields: [title] is required with
    [max_length=200], [description] ([blank=True]), [due_date] ([null=True,
    blank=True]) and [is_resolved] (a [BooleanField]) are not required.  The
    model validation that follows ([_post_clean]) checks the title against
    the same limit and adds no error of its own. *)
Definition TodoForm_clean (data : FormData) : Errors + Fields :=
  let t := CharField_clean true (Some title_max_length) (data_title data) in
  let d := CharField_clean false None (data_description data) in
  let dd := DateField_clean (data_due_date data) in
  let r := BooleanField_clean (data_is_resolved data) in
  match t, d, dd with
  | inr t', inr d', inr dd' => inr (mkFields t' d' dd' r)
  | _, _, _ =>
      inl (field_errors f_title t ++ field_errors f_description d
           ++ field_errors f_due_date dd)
  end.

Definition is_valid (data : FormData) : bool :=
  match TodoForm_clean data with inr _ => true | inl _ => false end.

(** [Field.has_default()] of the model field: only [is_resolved] declares
    [default=]. *)
Definition has_default (f : Field) : bool :=
  match f with f_is_resolved => true | _ => false end.

(** [widget.value_omitted_from_data]: the text and date inputs look for
    their key; [CheckboxInput] always answers [False]. *)
Definition value_omitted_from_data (f : Field) (data : FormData) : bool :=
  match f with
  | f_title => bool_decide (data_title data = None)
  | f_description => bool_decide (data_description data = None)
  | f_due_date => bool_decide (data_due_date data = DateOmitted)
  | f_is_resolved => false
  end.

(** [cleaned_data.get(f) in field.empty_values]; [False] is not an empty
    value. *)
Definition cleaned_is_empty (f : Field) (c : Fields) : bool :=
  match f with
  | f_title => bool_decide (c_title c = [])
  | f_description => bool_decide (c_description c = [])
  | f_due_date => bool_decide (c_due_date c = None)
  | f_is_resolved => false
  end.

(** The test of [construct_instance] that leaves a field of the instance
    alone. *)
Definition keeps_instance_value (f : Field) (data : FormData) (c : Fields) : bool :=
  has_default f && value_omitted_from_data f data && cleaned_is_empty f c.

(** [django.forms.models.construct_instance]: every form field not left
    alone is assigned from [cleaned_data]. *)
Definition construct_instance (data : FormData) (c : Fields) (instance : Fields) : Fields :=
  let pick {A} (f : Field) (get : Fields → A) : A :=
    if keeps_instance_value f data c then get instance else get c in
  mkFields (pick f_title c_title) (pick f_description c_description)
           (pick f_due_date c_due_date) (pick f_is_resolved c_is_resolved).

(** [Todo()]: the attribute values of a new instance. *)
Definition new_instance : Fields := mkFields [] [] None false.

Definition fields_of (t : Todo) : Fields :=
  mkFields (title t) (description t) (due_date t) (is_resolved t).

Definition with_fields (f : Fields) (t : Todo) : Todo :=
  mkTodo (c_title f) (c_description f) (c_due_date f) (c_is_resolved f)
         (created_at t) (updated_at t).

Definition set_is_resolved (b : bool) (t : Todo) : Todo :=
  mkTodo (title t) (description t) (due_date t) b (created_at t) (updated_at t).

Definition set_updated_at (u : datetime) (t : Todo) : Todo :=
  mkTodo (title t) (description t) (due_date t) (is_resolved t) (created_at t) u.

(** ** The database backend *)

(** [Meta.ordering = ['-created_at']]: a query is [ORDER BY created_at
    DESC].  The rows come back as some arrangement of the selected rows in
    which [created_at] never increases; nothing in the model names a second
    key, so the order among rows of equal [created_at] is the backend's. *)
Definition newest_first (x y : Z * Todo) : Prop := created_at y.2 ≤ created_at x.2.

Class Backend := {
  order_by_created_at_desc : list (Z * Todo) → list (Z * Todo);
  order_by_perm l : order_by_created_at_desc l ≡ₚ l;
  order_by_sorted l : Sorted newest_first (order_by_created_at_desc l)
}.

#[global] Instance newest_first_dec x y : Decision (newest_first x y).
Proof. unfold newest_first. apply _. Defined.

#[global] Instance newest_first_total : Total newest_first.
Proof. intros x y. unfold newest_first. lia. Qed.

#[global] Instance newest_first_trans : Transitive newest_first.
Proof. intros x y z. unfold newest_first. lia. Qed.

(** The order of the table's own backend: [created_at] descending, and rows
    of equal [created_at] as the table holds them, by ascending primary
    key. *)
Definition table_order (x y : Z * Todo) : Prop :=
  created_at y.2 < created_at x.2 ∨
  (created_at x.2 = created_at y.2 ∧ x.1 ≤ y.1).

(** The same, with rows of equal [created_at] by descending primary key. *)
Definition reverse_table_order (x y : Z * Todo) : Prop :=
  created_at y.2 < created_at x.2 ∨
  (created_at x.2 = created_at y.2 ∧ y.1 ≤ x.1).

#[global] Instance table_order_dec x y : Decision (table_order x y).
Proof. unfold table_order. apply _. Defined.

#[global] Instance table_order_total : Total table_order.
Proof. intros x y. unfold table_order. lia. Qed.

#[global] Instance table_order_trans : Transitive table_order.
Proof. intros x y z. unfold table_order. lia. Qed.

#[global] Instance reverse_table_order_dec x y : Decision (reverse_table_order x y).
Proof. unfold reverse_table_order. apply _. Defined.

#[global] Instance reverse_table_order_total : Total reverse_table_order.
Proof. intros x y. unfold reverse_table_order. lia. Qed.

(** The backend of the application's table. The table is stored by primary
    key and the query sorts its rows on [created_at] alone, keeping rows of
    equal [created_at] in the order of the table: the result is in
    [table_order], whatever order the selected rows are handed over in. *)
#[refine] Definition scan_backend : Backend :=
  {| order_by_created_at_desc l := merge_sort table_order l |}.
Proof.
- intros l. apply merge_sort_Permutation.
- intros l.
  assert (Hs : Sorted table_order (merge_sort table_order l))
    by apply Sorted_merge_sort, _.
  induction Hs as [|x l' Hs IH Hhd]; constructor; [done|].
  destruct Hhd as [|y l'' Hxy]; constructor.
  unfold table_order in Hxy. unfold newest_first. lia.
Defined.

(** Another backend that meets the contract: it returns rows of equal
    [created_at] the other way round. *)
#[refine] Definition reverse_scan_backend : Backend :=
  {| order_by_created_at_desc l := merge_sort reverse_table_order l |}.
Proof.
- intros l. apply merge_sort_Permutation.
- intros l.
  assert (Hs : Sorted reverse_table_order (merge_sort reverse_table_order l))
    by apply Sorted_merge_sort, _.
  induction Hs as [|x l' Hs IH Hhd]; constructor; [done|].
  destruct Hhd as [|y l'' Hxy]; constructor.
  unfold reverse_table_order in Hxy. unfold newest_first. lia.
Defined.

(** ** views.py *)

Inductive Response :=
| Render_todo_list (todos : list (Z * Todo)) (filter_type : str)
| Render_todo_form (action : str) (errors : Errors)
| Render_todo_confirm_delete (pk : Z) (todo : Todo)
| Redirect_todo_list.

(** The clock: [now_at n] is what the n-th call of [timezone.now()] of a run
    returns. *)
Class Clock := now_at : nat → datetime.

Section App.

Context {clock : Clock} {B : Backend}.

Definition timezone_now : M datetime :=
  λ w, (Done (now_at (ticks w)), mkWorld (rows w) (last_pk w) (S (ticks w))).

(** [Todo.is_overdue] (models.py, 23-28). A date object is always truthy, so
    [self.due_date] is false exactly when it is [None]. *)
Definition is_overdue (self : Todo) : M bool :=
  match due_date self with
  | Some d =>
      if negb (is_resolved self)
      then let* now := timezone_now in ret (bool_decide (d < date_of now))
      else ret false
  | None => ret false
  end.

(** [Model.save()] of a new instance: [pre_save] reads the clock for
    [created_at] ([auto_now_add]) and then for [updated_at] ([auto_now]), and
    the row is inserted under the next key of the sequence. *)
Definition save_new (f : Fields) : M Z :=
  let* c := timezone_now in
  let* u := timezone_now in
  λ w, let pk := last_pk w + 1 in
       (Done pk,
        mkWorld (<[pk := with_fields f (mkTodo [] [] None false c u)]> (rows w))
                pk (ticks w)).

(** [Model.save()] of an instance loaded under [pk]: [pre_save] reads the
    clock for [updated_at] only, and the row is written back. *)
Definition save (pk : Z) (self : Todo) : M unit :=
  let* u := timezone_now in
  λ w, (Done (), mkWorld (<[pk := set_updated_at u self]> (rows w)) (last_pk w) (ticks w)).

(** [Model.delete()] *)
Definition delete_row (pk : Z) : M unit :=
  λ w, (Done (), mkWorld (delete pk (rows w)) (last_pk w) (ticks w)).

(** [get_object_or_404(Todo, pk=pk)], and [get_object()] of the generic
    views. *)
Definition get_object_or_404 (pk : Z) : M Todo :=
  λ w, match rows w !! pk with
       | Some t => ret t w
       | None => raise_Http404 w
       end.

(** [Todo.objects.filter(...)] under the default ordering. *)
Definition query (p : Todo → bool) : M (list (Z * Todo)) :=
  λ w, (Done (order_by_created_at_desc (filter (λ r, p r.2 = true) (map_to_list (rows w)))), w).

(** [TodoListView.get_queryset] (views.py, 15-24); the argument is
    [request.GET.get('filter')]. *)
Definition get_queryset (GET_filter : option str) : M (list (Z * Todo)) :=
  let filter_type := default (py "all") GET_filter in
  if decide (filter_type = py "resolved") then query is_resolved
  else if decide (filter_type = py "unresolved") then query (λ t, negb (is_resolved t))
  else query (λ _, true).

Definition TodoListView_get (GET_filter : option str) : M Response :=
  let* todos := get_queryset GET_filter in
  ret (Render_todo_list todos (default (py "all") GET_filter)).

Definition TodoCreateView_get : M Response :=
  ret (Render_todo_form (py "Create") []).

(** [CreateView.post]: [form_valid] saves and redirects, [form_invalid]
    renders the form again with its errors. *)
Definition TodoCreateView_post (data : FormData) : M Response :=
  match TodoForm_clean data with
  | inl errs => ret (Render_todo_form (py "Create") errs)
  | inr c =>
      let* _ := save_new (construct_instance data c new_instance) in
      ret Redirect_todo_list
  end.

Definition TodoUpdateView_get (pk : Z) : M Response :=
  let* _ := get_object_or_404 pk in
  ret (Render_todo_form (py "Update") []).

(** [UpdateView.post]: the object is fetched first, then the form is bound
    to it. *)
Definition TodoUpdateView_post (pk : Z) (data : FormData) : M Response :=
  let* obj := get_object_or_404 pk in
  match TodoForm_clean data with
  | inl errs => ret (Render_todo_form (py "Update") errs)
  | inr c =>
      let* _ := save pk (with_fields (construct_instance data c (fields_of obj)) obj) in
      ret Redirect_todo_list
  end.

Definition TodoDeleteView_get (pk : Z) : M Response :=
  let* obj := get_object_or_404 pk in
  ret (Render_todo_confirm_delete pk obj).

Definition TodoDeleteView_post (pk : Z) : M Response :=
  let* _ := get_object_or_404 pk in
  let* _ := delete_row pk in
  ret Redirect_todo_list.

(** [toggle_resolved] (views.py, 65-70) *)
Definition toggle_resolved (pk : Z) : M Response :=
  let* todo := get_object_or_404 pk in
  let todo := set_is_resolved (negb (is_resolved todo)) todo in
  let* _ := save pk todo in
  ret Redirect_todo_list.

(** The requests the URL table routes to the views. *)
Inductive Request :=
| GET_list (GET_filter : option str)
| GET_create
| POST_create (data : FormData)
| GET_update (pk : Z)
| POST_update (pk : Z) (data : FormData)
| GET_delete (pk : Z)
| POST_delete (pk : Z)
| GET_toggle (pk : Z).

Definition handle (req : Request) : M Response :=
  match req with
  | GET_list f => TodoListView_get f
  | GET_create => TodoCreateView_get
  | POST_create data => TodoCreateView_post data
  | GET_update pk => TodoUpdateView_get pk
  | POST_update pk data => TodoUpdateView_post pk data
  | GET_delete pk => TodoDeleteView_get pk
  | POST_delete pk => TodoDeleteView_post pk
  | GET_toggle pk => toggle_resolved pk
  end.

(** The world after a sequence of requests, whatever each one answered. *)
Fixpoint run (reqs : list Request) (w : World) : World :=
  match reqs with
  | [] => w
  | req :: reqs' => run reqs' (handle req w).2
  end.

End App.

(** ** Specification vocabulary *)

(** What one request can do to the world: nothing, insert a row under the
    next key, write back a row that exists, or delete a key. *)
Inductive step {clock : Clock} (w : World) : World → Prop :=
| step_read : step w w
| step_insert row :
    created_at row = now_at (ticks w) →
    updated_at row = now_at (S (ticks w)) →
    step w (mkWorld (<[last_pk w + 1 := row]> (rows w)) (last_pk w + 1)
                    (S (S (ticks w))))
| step_write pk row row' :
    rows w !! pk = Some row →
    created_at row' = created_at row →
    updated_at row' = now_at (ticks w) →
    step w (mkWorld (<[pk := row']> (rows w)) (last_pk w) (S (ticks w)))
| step_delete pk :
    step w (mkWorld (delete pk (rows w)) (last_pk w) (ticks w)).

(** The key sequence is ahead of the table: no row has a key beyond the last
    one handed out. *)
Definition sequence_ok (w : World) : Prop :=
  ∀ pk, is_Some (rows w !! pk) → pk ≤ last_pk w.

(** The clock never runs backwards. *)
Definition monotone_clock {clock : Clock} : Prop :=
  ∀ m n, (m ≤ n)%nat → now_at m ≤ now_at n.

(** Every row was created no later than it was last saved, and no later
    than any reading the clock has yet to give. *)
Definition timestamps_ok {clock : Clock} (w : World) : Prop :=
  ∀ pk row, rows w !! pk = Some row →
    created_at row ≤ updated_at row ∧
    ∀ n, (ticks w ≤ n)%nat → created_at row ≤ now_at n.



(** A clock that stands still, and two creations under it. *)
Definition still_clock : Clock := λ _, 0.

Definition titled (s : string) : FormData :=
  mkFormData (Some (py s)) None DateOmitted None.

Definition two_at_once : World :=
  run (clock := still_clock) (B := scan_backend)
      [POST_create (titled "First TODO"); POST_create (titled "Second TODO")]
      empty_world.


(** A clock that steps back once: its third reading is earlier than its
    first two. *)
Definition stepping_back_clock : Clock :=
  λ n, if (n <? 2)%nat then 100 + Z.of_nat n else 50.

(** ** Fixtures *)

(** A clock that starts on day 20000 and advances by a microsecond at each
    reading. *)
Definition tick_clock : Clock := λ n, 20000 * usec_per_day + Z.of_nat n.

(** "Buy milk", due the day before. *)
Definition buy_milk : FormData :=
  mkFormData (Some (py "Buy milk")) None (DateValue 19999) None.

Definition one_todo : World :=
  run (clock := tick_clock) (B := scan_backend) [POST_create buy_milk] empty_world.

(** A form with a good title and a date that does not parse. *)
Definition bad_date : FormData :=
  mkFormData (Some (py "Buy milk")) None DateMalformed None.

(** A title of 199 letters followed by two spaces. *)
Definition padded_title : str := replicate 199 97%N ++ py "  ".

(** ** Further vocabulary *)

(** [Todo.__str__] (models.py, 20-21) *)
Definition Todo_str (self : Todo) : str := title self.

(** [form.errors] of a bound form; empty when the form is valid. *)
Definition form_errors (data : FormData) : Errors :=
  match TodoForm_clean data with
  | inl errs => errs
  | inr _ => []
  end.

(** The form data that carries the values of [c] as they are. *)
Definition resubmit (c : Fields) : FormData :=
  mkFormData (Some (c_title c)) (Some (c_description c))
             (from_option DateValue DateOmitted (c_due_date c))
             (Some (c_is_resolved c)).

(** A text column as the form leaves it: stripped, and without NUL. *)
Definition clean_text (s : str) : Prop := strip s = s ∧ 0%N ∉ s.

(** A row as the form leaves it. *)
Definition clean_row (row : Todo) : Prop :=
  title row ≠ [] ∧ (List.length (title row) ≤ title_max_length)%nat ∧
  clean_text (title row) ∧ clean_text (description row).

(** The clock advances at every reading. *)
Definition strict_clock {clock : Clock} : Prop :=
  ∀ m n, (m < n)%nat → now_at m < now_at n.

(** No two rows were created at the same time. *)
Definition distinct_created_at (w : World) : Prop :=
  ∀ pk1 pk2 row1 row2,
    rows w !! pk1 = Some row1 → rows w !! pk2 = Some row2 →
    created_at row1 = created_at row2 → pk1 = pk2.

(** Keys follow creation: a larger key was created later, and every row was
    created before any reading the clock has yet to give. *)
Definition keys_follow_creation {clock : Clock} (w : World) : Prop :=
  (∀ pk row, rows w !! pk = Some row →
     ∀ n, (ticks w ≤ n)%nat → created_at row < now_at n) ∧
  (∀ pk1 pk2 row1 row2,
     rows w !! pk1 = Some row1 → rows w !! pk2 = Some row2 →
     pk1 < pk2 → created_at row1 < created_at row2).

(** * Properties *)

Section Properties.

Context {clock : Clock} {B : Backend}.

(** ** What each view does to the world *)

Lemma get_object_found pk t w :
  rows w !! pk = Some t → get_object_or_404 pk w = (Done t, w).
Proof. intros Hpk. unfold get_object_or_404. by rewrite Hpk. Qed.

Lemma get_object_missing pk w :
  rows w !! pk = None → get_object_or_404 pk w = (Http404, w).
Proof. intros Hpk. unfold get_object_or_404. by rewrite Hpk. Qed.

Lemma toggle_resolved_found pk t w :
  rows w !! pk = Some t →
  toggle_resolved pk w =
  (Done Redirect_todo_list,
   mkWorld (<[pk := mkTodo (title t) (description t) (due_date t)
                           (negb (is_resolved t)) (created_at t)
                           (now_at (ticks w))]> (rows w))
           (last_pk w) (S (ticks w))).
Proof.
  intros Hpk. unfold toggle_resolved, bind.
  by rewrite (get_object_found _ _ _ Hpk).
Qed.

Lemma update_post_found pk t data w :
  rows w !! pk = Some t →
  TodoUpdateView_post pk data w =
  match TodoForm_clean data with
  | inl errs => (Done (Render_todo_form (py "Update") errs), w)
  | inr c =>
      (Done Redirect_todo_list,
       mkWorld (<[pk := set_updated_at (now_at (ticks w))
                          (with_fields (construct_instance data c (fields_of t)) t)]>
                  (rows w))
               (last_pk w) (S (ticks w)))
  end.
Proof.
  intros Hpk. unfold TodoUpdateView_post, bind.
  rewrite (get_object_found _ _ _ Hpk). by destruct (TodoForm_clean data).
Qed.

Lemma create_post_run data w :
  TodoCreateView_post data w =
  match TodoForm_clean data with
  | inl errs => (Done (Render_todo_form (py "Create") errs), w)
  | inr c =>
      (Done Redirect_todo_list,
       mkWorld (<[last_pk w + 1 :=
                    with_fields (construct_instance data c new_instance)
                      (mkTodo [] [] None false (now_at (ticks w))
                              (now_at (S (ticks w))))]> (rows w))
               (last_pk w + 1) (S (S (ticks w))))
  end.
Proof. unfold TodoCreateView_post. by destruct (TodoForm_clean data). Qed.

Lemma delete_post_found pk t w :
  rows w !! pk = Some t →
  TodoDeleteView_post pk w =
  (Done Redirect_todo_list, mkWorld (delete pk (rows w)) (last_pk w) (ticks w)).
Proof.
  intros Hpk. unfold TodoDeleteView_post, bind.
  by rewrite (get_object_found _ _ _ Hpk).
Qed.

(** ** The overdue flag *)

(** C1. [is_overdue] answers true exactly when the due date is set, the
    record is not resolved and the due date is strictly before the day of
    the current clock reading; it is computed from the record and the clock
    and writes nothing to the store. *)
Theorem is_overdue_iff (self : Todo) (w : World) :
  ∃ b w', is_overdue self w = (Done b, w') ∧
          store w' = store w ∧
          (b = true ↔
             ∃ d, due_date self = Some d ∧ is_resolved self = false ∧
                  d < date_of (now_at (ticks w))).
Proof.
  unfold is_overdue.
  destruct (due_date self) as [d|] eqn:Hd.
  - destruct (is_resolved self) eqn:Hr; simpl.
    + exists false, w. split_and!; [done..|]. split; [done|].
      by intros (? & _ & ? & _).
    + eexists _, _. split_and!; [reflexivity..|].
      rewrite bool_decide_eq_true. split.
      * intros Hlt. by exists d.
      * intros (d' & Hd' & _ & Hlt). by simplify_eq.
  - exists false, w. split_and!; [done..|]. split; [done|].
    by intros (? & ? & _).
Qed.

(** ** Requests for a key that is absent *)

(** C7. For a key that is not in the table, fetching the object, posting an
    update, deleting and toggling all raise [Http404] and leave the world as
    it was. *)
Theorem missing_key_not_found (pk : Z) (data : FormData) (w : World) :
  rows w !! pk = None →
  get_object_or_404 pk w = (Http404, w) ∧
  TodoUpdateView_get pk w = (Http404, w) ∧
  TodoUpdateView_post pk data w = (Http404, w) ∧
  TodoDeleteView_get pk w = (Http404, w) ∧
  TodoDeleteView_post pk w = (Http404, w) ∧
  toggle_resolved pk w = (Http404, w).
Proof.
  intros Hpk.
  unfold TodoUpdateView_get, TodoUpdateView_post, TodoDeleteView_get,
    TodoDeleteView_post, toggle_resolved, bind.
  by rewrite (get_object_missing _ _ Hpk).
Qed.

(** ** Toggling *)

(** C9. Toggling an existing record rewrites that row with [is_resolved]
    negated and [updated_at] refreshed: the row stays under its key with the
    same title, description, due date and creation time, every other key
    reads as before, and the key sequence is not advanced. *)
Theorem toggle_resolved_frame (pk : Z) (t : Todo) (w : World) :
  rows w !! pk = Some t →
  ∃ w' t',
    toggle_resolved pk w = (Done Redirect_todo_list, w') ∧
    rows w' !! pk = Some t' ∧
    title t' = title t ∧ description t' = description t ∧
    due_date t' = due_date t ∧ created_at t' = created_at t ∧
    is_resolved t' = negb (is_resolved t) ∧
    updated_at t' = now_at (ticks w) ∧
    (∀ pk', pk' ≠ pk → rows w' !! pk' = rows w !! pk') ∧
    dom (rows w') = dom (rows w) ∧
    last_pk w' = last_pk w.
Proof.
  intros Hpk. eexists _, _. split; [by apply toggle_resolved_found|].
  simpl. split; [by rewrite lookup_insert_eq|]. simpl.
  split_and!; try done.
  - intros pk' Hne. by rewrite lookup_insert_ne.
  - by apply dom_insert_lookup_L.
Qed.

(** C5. Toggling an existing record twice brings [is_resolved] back to its
    first value, and each of the two calls stamps [updated_at] with the
    clock reading of that call. *)
Theorem toggle_resolved_twice (pk : Z) (t : Todo) (w : World) :
  rows w !! pk = Some t →
  ∃ w1 t1 w2 t2,
    toggle_resolved pk w = (Done Redirect_todo_list, w1) ∧
    rows w1 !! pk = Some t1 ∧
    is_resolved t1 = negb (is_resolved t) ∧
    updated_at t1 = now_at (ticks w) ∧
    toggle_resolved pk w1 = (Done Redirect_todo_list, w2) ∧
    rows w2 !! pk = Some t2 ∧
    is_resolved t2 = is_resolved t ∧
    updated_at t2 = now_at (ticks w1) ∧
    ticks w1 = S (ticks w).
Proof.
  intros Hpk.
  pose proof (toggle_resolved_found pk t w Hpk) as H1.
  set (w1 := (toggle_resolved pk w).2).
  assert (Hw1 : toggle_resolved pk w = (Done Redirect_todo_list, w1))
    by (unfold w1; by rewrite H1).
  assert (Hpk1 : rows w1 !! pk =
            Some (mkTodo (title t) (description t) (due_date t)
                    (negb (is_resolved t)) (created_at t) (now_at (ticks w)))).
  { unfold w1. rewrite H1. simpl. by rewrite lookup_insert_eq. }
  pose proof (toggle_resolved_found pk _ w1 Hpk1) as H2.
  eexists w1, _, _, _. split; [exact Hw1|]. split; [exact Hpk1|].
  split; [done|]. split; [done|]. split; [exact H2|].
  simpl. split; [by rewrite lookup_insert_eq|]. simpl.
  split; [by rewrite negb_involutive|]. split; [done|].
  unfold w1. by rewrite H1.
Qed.

(** ** Listing *)

Lemma query_elem (p : Todo → bool) (w : World) (pk : Z) (t : Todo) :
  (pk, t) ∈ order_by_created_at_desc
              (filter (λ r, p r.2 = true) (map_to_list (rows w)))
  ↔ rows w !! pk = Some t ∧ p t = true.
Proof.
  rewrite order_by_perm, list_elem_of_filter, elem_of_map_to_list. simpl.
  tauto.
Qed.

Lemma query_NoDup (p : Todo → bool) (w : World) :
  NoDup (order_by_created_at_desc
           (filter (λ r, p r.2 = true) (map_to_list (rows w)))).
Proof.
  rewrite order_by_perm. apply NoDup_filter, NoDup_map_to_list.
Qed.

Lemma get_queryset_query (f : option str) (w : World) :
  ∃ p, get_queryset f w = query p w.
Proof.
  unfold get_queryset. repeat case_decide; eauto.
Qed.

Lemma StronglySorted_lookup {A} (R : relation A) (l : list A) i j x y :
  StronglySorted R l → l !! i = Some x → l !! j = Some y → (i < j)%nat → R x y.
Proof.
  intros Hs. revert i j. induction Hs as [|a l Hs IH Hall]; intros i j Hi Hj Hlt.
  - done.
  - destruct j as [|j]; [lia|]. simpl in Hj. destruct i as [|i]; simpl in Hi.
    + simplify_eq. rewrite Forall_forall in Hall.
      apply Hall. by eapply list_elem_of_lookup_2.
    + eapply IH; eauto with lia.
Qed.

(** C2. The list under [resolved] holds exactly the rows with [is_resolved]
    true, under [unresolved] exactly those with it false, under [all] every
    row, each once; any other value of the parameter, and its absence, give
    the list of [all], and no case raises. *)
Theorem get_queryset_filter (w : World) :
  (∃ l, get_queryset (Some (py "resolved")) w = (Done l, w) ∧ NoDup l ∧
        ∀ pk t, (pk, t) ∈ l ↔ rows w !! pk = Some t ∧ is_resolved t = true) ∧
  (∃ l, get_queryset (Some (py "unresolved")) w = (Done l, w) ∧ NoDup l ∧
        ∀ pk t, (pk, t) ∈ l ↔ rows w !! pk = Some t ∧ is_resolved t = false) ∧
  (∃ l, get_queryset (Some (py "all")) w = (Done l, w) ∧ NoDup l ∧
        ∀ pk t, (pk, t) ∈ l ↔ rows w !! pk = Some t) ∧
  (∀ f, f ≠ Some (py "resolved") → f ≠ Some (py "unresolved") →
        get_queryset f w = get_queryset (Some (py "all")) w).
Proof.
  split_and!.
  - eexists. split; [reflexivity|]. split; [apply query_NoDup|].
    intros pk t. apply query_elem.
  - eexists. split; [reflexivity|].
    split; [apply (query_NoDup (λ t, negb (is_resolved t)))|].
    intros pk t.
    rewrite (query_elem (λ t, negb (is_resolved t))), negb_true_iff. done.
  - eexists. split; [reflexivity|]. split; [apply (query_NoDup (λ _, true))|].
    intros pk t. rewrite (query_elem (λ _, true)). tauto.
  - intros f Hr Hu. unfold get_queryset.
    destruct f as [s|]; simpl; [|done].
    case_decide; [by subst|]. case_decide; [by subst|]. done.
Qed.

(** Under every backend and every filter the list never goes up in
    [created_at]: a row that comes earlier was created at the same time as,
    or later than, any row that comes after it. *)
Theorem get_queryset_newest_first (f : option str) (w : World) :
  ∃ l, get_queryset f w = (Done l, w) ∧
       ∀ i j x y, l !! i = Some x → l !! j = Some y → (i < j)%nat →
                  created_at y.2 ≤ created_at x.2.
Proof.
  destruct (get_queryset_query f w) as [p ->].
  eexists. split; [reflexivity|].
  intros i j x y Hi Hj Hlt.
  eapply (StronglySorted_lookup newest_first); [|exact Hi|exact Hj|exact Hlt].
  apply Sorted_StronglySorted; [apply _|]. apply order_by_sorted.
Qed.

(** ** Validation *)

Lemma has_null_false (s : str) : has_null s = false → 0%N ∉ s.
Proof. unfold has_null. by rewrite bool_decide_eq_false. Qed.

Lemma title_clean_invalid (value : option str) :
  let t := CharField_to_python value in
  t = [] ∨ (title_max_length < List.length t)%nat ∨ 0%N ∈ t →
  ∃ c cs, CharField_clean true (Some title_max_length) value = inl (c :: cs).
Proof.
  intros t Hbad. unfold CharField_clean. fold t.
  destruct (decide (t = [])) as [|Hne]; [by eauto|]. simpl.
  unfold MaxLengthValidator, ProhibitNullCharactersValidator, has_null.
  destruct Hbad as [?|[Hlong|Hnul]]; [done| |].
  - rewrite decide_True by done. simpl. eauto.
  - rewrite (bool_decide_eq_true_2 _ Hnul). case_decide; simpl; eauto.
Qed.

Lemma CharField_clean_valid (is_required : bool) (limit : option nat)
    (value : option str) :
  let t := CharField_to_python value in
  (is_required = true → t ≠ []) →
  (∀ n, limit = Some n → (List.length t ≤ n)%nat) →
  0%N ∉ t →
  CharField_clean is_required limit value = inr t.
Proof.
  intros t Hreq Hlen Hnul. unfold CharField_clean. fold t.
  destruct (decide (t = [])) as [Ht|Hne].
  - destruct is_required; [|done]. by destruct Hreq.
  - unfold ProhibitNullCharactersValidator, has_null.
    rewrite (bool_decide_eq_false_2 _ Hnul).
    destruct limit as [n|]; simpl; [|done].
    unfold MaxLengthValidator. rewrite decide_False; [done|].
    specialize (Hlen n eq_refl). lia.
Qed.

Lemma TodoForm_clean_title_error (data : FormData) c cs :
  CharField_clean true (Some title_max_length) (data_title data) = inl (c :: cs) →
  ∃ errs, TodoForm_clean data = inl errs ∧ has_error f_title errs.
Proof.
  intros Ht. unfold TodoForm_clean. rewrite Ht.
  eexists. split; [reflexivity|]. exists c. simpl. apply list_elem_of_here.
Qed.

Lemma TodoForm_clean_valid (data : FormData) :
  let t := CharField_to_python (data_title data) in
  let d := CharField_to_python (data_description data) in
  t ≠ [] → (List.length t ≤ title_max_length)%nat → 0%N ∉ t → 0%N ∉ d →
  data_due_date data ≠ DateMalformed →
  ∃ dd, DateField_clean (data_due_date data) = inr dd ∧
        TodoForm_clean data =
        inr (mkFields t d dd (BooleanField_clean (data_is_resolved data))).
Proof.
  intros t d Hne Hlen Hnul Hdnul Hdate. unfold TodoForm_clean.
  rewrite (CharField_clean_valid true (Some title_max_length));
    [|done|by intros ? [= <-]|done].
  rewrite (CharField_clean_valid false None); [|done|done|done].
  destruct (data_due_date data); simpl; by eauto.
Qed.

Lemma CharField_clean_inr (is_required : bool) (limit : option nat)
    (value : option str) (v : str) :
  CharField_clean is_required limit value = inr v → v = CharField_to_python value.
Proof.
  unfold CharField_clean. case_decide.
  - destruct is_required; congruence.
  - case_match; congruence.
Qed.

Lemma TodoForm_clean_inr (data : FormData) (c : Fields) :
  TodoForm_clean data = inr c →
  c_title c = CharField_to_python (data_title data) ∧
  c_description c = CharField_to_python (data_description data) ∧
  DateField_clean (data_due_date data) = inr (c_due_date c) ∧
  c_is_resolved c = BooleanField_clean (data_is_resolved data).
Proof.
  unfold TodoForm_clean.
  destruct (CharField_clean true _ _) as [|t] eqn:Ht; [done|].
  destruct (CharField_clean false _ _) as [|d] eqn:Hd; [done|].
  destruct (DateField_clean _) as [|dd] eqn:Hdd; [done|].
  intros [= <-]. simpl.
  by rewrite (CharField_clean_inr _ _ _ _ Ht), (CharField_clean_inr _ _ _ _ Hd).
Qed.

Lemma construct_instance_cleaned (data : FormData) (c instance : Fields) :
  construct_instance data c instance = c.
Proof.
  unfold construct_instance, keeps_instance_value. simpl. by destruct c.
Qed.

(** C4, as the code has it. The title is judged after [strip]: when the
    stripped title is empty, longer than 200 code points or holds a NUL, the
    form has an error on [title], creating renders the form again and so
    does updating an existing record, and the world is as before.  When the
    stripped title has 1 to 200 code points and no NUL, and the description
    and the due date are well formed, creating redirects and adds one row
    under a key that was free, holding the cleaned values. *)
Theorem title_validation (data : FormData) (w : World) :
  let t := CharField_to_python (data_title data) in
  (t = [] ∨ (title_max_length < List.length t)%nat ∨ 0%N ∈ t →
   ∃ errs, has_error f_title errs ∧
     TodoCreateView_post data w = (Done (Render_todo_form (py "Create") errs), w) ∧
     ∀ pk, is_Some (rows w !! pk) →
       TodoUpdateView_post pk data w = (Done (Render_todo_form (py "Update") errs), w)) ∧
  ((1 ≤ List.length t ≤ title_max_length)%nat → 0%N ∉ t →
   0%N ∉ CharField_to_python (data_description data) →
   data_due_date data ≠ DateMalformed →
   sequence_ok w →
   ∃ w' pk row,
     TodoCreateView_post data w = (Done Redirect_todo_list, w') ∧
     rows w !! pk = None ∧
     rows w' = <[pk := row]> (rows w) ∧
     size (rows w') = S (size (rows w)) ∧
     title row = t ∧
     description row = CharField_to_python (data_description data) ∧
     DateField_clean (data_due_date data) = inr (due_date row) ∧
     is_resolved row = BooleanField_clean (data_is_resolved data) ∧
     created_at row = now_at (ticks w) ∧
     updated_at row = now_at (S (ticks w))).
Proof.
  intros t. split.
  - intros Hbad.
    destruct (title_clean_invalid _ Hbad) as (c & cs & Hclean).
    destruct (TodoForm_clean_title_error _ _ _ Hclean) as (errs & Herrs & Htitle).
    exists errs. split; [done|]. split.
    + by rewrite create_post_run, Herrs.
    + intros pk [row Hrow]. by rewrite (update_post_found _ _ _ _ Hrow), Herrs.
  - intros [Hpos Hlen] Hnul Hdnul Hdate Hseq.
    assert (Hne : t ≠ []) by (intros Ht; rewrite Ht in Hpos; simpl in Hpos; lia).
    destruct (TodoForm_clean_valid data Hne Hlen Hnul Hdnul Hdate)
      as (dd & Hdd & Hclean).
    assert (Hfree : rows w !! (last_pk w + 1) = None).
    { destruct (rows w !! (last_pk w + 1)) eqn:Hrow; [|done].
      assert (last_pk w + 1 ≤ last_pk w) by (apply Hseq; eauto). lia. }
    eexists _, (last_pk w + 1), _. split.
    { rewrite create_post_run, Hclean, construct_instance_cleaned. reflexivity. }
    simpl. split; [done|]. split; [done|].
    split; [by apply map_size_insert_None|]. by rewrite Hdd.
Qed.

(** C10. A successful update writes all four form fields from the cleaned
    data, whatever the row held: a request without a due date leaves
    [due_date] unset, one without the checkbox leaves [is_resolved] false,
    one without a description leaves it empty; [created_at] stays and
    [updated_at] is the clock reading of the request. *)
Theorem update_overwrites_fields (pk : Z) (row : Todo) (data : FormData)
    (c : Fields) (w : World) :
  rows w !! pk = Some row →
  TodoForm_clean data = inr c →
  ∃ w' row',
    TodoUpdateView_post pk data w = (Done Redirect_todo_list, w') ∧
    rows w' !! pk = Some row' ∧
    fields_of row' = c ∧
    title row' = CharField_to_python (data_title data) ∧
    description row' = CharField_to_python (data_description data) ∧
    DateField_clean (data_due_date data) = inr (due_date row') ∧
    is_resolved row' = BooleanField_clean (data_is_resolved data) ∧
    (data_due_date data = DateOmitted → due_date row' = None) ∧
    (data_is_resolved data = None → is_resolved row' = false) ∧
    (data_description data = None → description row' = []) ∧
    created_at row' = created_at row ∧
    updated_at row' = now_at (ticks w).
Proof.
  intros Hrow Hclean. eexists _, _. split.
  { rewrite (update_post_found _ _ _ _ Hrow), Hclean, construct_instance_cleaned.
    reflexivity. }
  simpl. split; [by rewrite lookup_insert_eq|]. simpl.
  destruct (TodoForm_clean_inr _ _ Hclean) as (Ht & Hd & Hdd & Hr).
  split; [by destruct c|]. split_and!; try done.
  - intros Hom. rewrite Hom in Hdd. simpl in Hdd. congruence.
  - intros Hom. by rewrite Hr, Hom.
  - intros Hom. by rewrite Hd, Hom.
Qed.

(** ** Sequences of requests *)

Ltac step_cases H :=
  destruct H as [|new Hcreated Hupdated|pk0 old new Hold Hcreated Hupdated|pk0];
  simpl.

Lemma handle_step (req : Request) (w : World) : step w (handle req w).2.
Proof.
  destruct req as [f| |data|pk|pk data|pk|pk|pk]; simpl.
  - unfold TodoListView_get, bind.
    destruct (get_queryset_query f w) as [p ->]. simpl. constructor.
  - constructor.
  - rewrite create_post_run. destruct (TodoForm_clean data); simpl.
    + constructor.
    + by apply step_insert.
  - unfold TodoUpdateView_get, bind, get_object_or_404.
    destruct (rows w !! pk); simpl; constructor.
  - destruct (rows w !! pk) as [row|] eqn:Hrow.
    + rewrite (update_post_found _ _ _ _ Hrow).
      destruct (TodoForm_clean data); simpl; [constructor|].
      by eapply step_write.
    + unfold TodoUpdateView_post, bind.
      rewrite (get_object_missing _ _ Hrow). constructor.
  - unfold TodoDeleteView_get, bind, get_object_or_404.
    destruct (rows w !! pk); simpl; constructor.
  - destruct (rows w !! pk) as [row|] eqn:Hrow.
    + rewrite (delete_post_found _ _ _ Hrow). simpl. constructor.
    + unfold TodoDeleteView_post, bind.
      rewrite (get_object_missing _ _ Hrow). constructor.
  - destruct (rows w !! pk) as [row|] eqn:Hrow.
    + rewrite (toggle_resolved_found _ _ _ Hrow). simpl.
      by eapply step_write.
    + unfold toggle_resolved, bind.
      rewrite (get_object_missing _ _ Hrow). constructor.
Qed.

Lemma run_ind (P : World → Prop) :
  (∀ w w', P w → step w w' → P w') →
  ∀ reqs w, P w → P (run reqs w).
Proof.
  intros Hstep reqs. induction reqs as [|req reqs IH]; intros w Hw; [done|].
  simpl. apply IH. eapply Hstep; [exact Hw|]. apply handle_step.
Qed.

Lemma step_sequence_ok (w w' : World) :
  sequence_ok w → step w w' → sequence_ok w'.
Proof.
  intros Hseq Hstep pk. step_cases Hstep.
  - apply Hseq.
  - rewrite lookup_insert. case_decide; [lia|].
    intros Hpk. specialize (Hseq pk Hpk). lia.
  - rewrite lookup_insert. case_decide; [|apply Hseq].
    intros _. subst. apply Hseq. eauto.
  - rewrite lookup_delete. case_decide; [by intros [? ?]|apply Hseq].
Qed.

Lemma step_absent (pk : Z) (w w' : World) :
  step w w' →
  pk ≤ last_pk w ∧ rows w !! pk = None →
  pk ≤ last_pk w' ∧ rows w' !! pk = None.
Proof.
  intros Hstep [Hle Hnone]. step_cases Hstep.
  - done.
  - split; [lia|]. rewrite lookup_insert_ne by lia. done.
  - split; [done|]. rewrite lookup_insert_ne; [done|]. congruence.
  - split; [done|]. rewrite lookup_delete. by case_decide.
Qed.

Lemma step_created_at (w w' : World) (pk : Z) (row row' : Todo) :
  sequence_ok w → step w w' →
  rows w !! pk = Some row → rows w' !! pk = Some row' →
  created_at row' = created_at row.
Proof.
  intros Hseq Hstep Hrow. step_cases Hstep.
  - congruence.
  - assert (pk ≤ last_pk w) by (apply Hseq; eauto).
    rewrite lookup_insert_ne by lia. congruence.
  - rewrite lookup_insert. case_decide; [|congruence].
    intros [= <-]. subst. congruence.
  - rewrite lookup_delete. case_decide; [done|congruence].
Qed.

Lemma step_timestamps_ok (w w' : World) :
  monotone_clock → timestamps_ok w → step w w' → timestamps_ok w'.
Proof.
  intros Hmono Hok Hstep pk row. step_cases Hstep.
  - apply Hok.
  - rewrite lookup_insert. case_decide.
    + intros [= <-]. rewrite Hcreated, Hupdated. split.
      * apply Hmono. lia.
      * intros n Hn. apply Hmono. lia.
    + intros Hrow. destruct (Hok _ _ Hrow) as [? Hlater].
      split; [done|]. intros n Hn. apply Hlater. lia.
  - rewrite lookup_insert. case_decide.
    + intros [= <-]. destruct (Hok _ _ Hold) as [_ Hlater].
      rewrite Hcreated, Hupdated. split.
      * by apply Hlater.
      * intros n Hn. apply Hlater. lia.
    + intros Hrow. destruct (Hok _ _ Hrow) as [? Hlater].
      split; [done|]. intros n Hn. apply Hlater. lia.
  - rewrite lookup_delete. case_decide; [done|].
    intros Hrow. destruct (Hok _ _ Hrow) as [? Hlater]. done.
Qed.

Lemma sequence_ok_run (reqs : list Request) :
  sequence_ok (run reqs empty_world).
Proof.
  apply (run_ind sequence_ok).
  - intros. by eapply step_sequence_ok.
  - intros pk [row Hrow]. simpl in Hrow. by rewrite lookup_empty in Hrow.
Qed.

Lemma timestamps_ok_empty : timestamps_ok empty_world.
Proof. intros pk row Hrow. simpl in Hrow. by rewrite lookup_empty in Hrow. Qed.

(** C6. After a delete that went through, the key is gone from the table
    and fetching it raises [Http404]; nothing else is kept of the row, and
    from a world whose key sequence is ahead of the table no later request
    brings the key back. *)
Theorem delete_then_get (pk : Z) (r : Response) (w w' : World) :
  TodoDeleteView_post pk w = (Done r, w') →
  get_object_or_404 pk w' = (Http404, w') ∧
  rows w' = delete pk (rows w) ∧
  last_pk w' = last_pk w ∧
  (sequence_ok w →
   ∀ reqs, get_object_or_404 pk (run reqs w') = (Http404, run reqs w')).
Proof.
  intros Hdel. destruct (rows w !! pk) as [row|] eqn:Hrow.
  - rewrite (delete_post_found _ _ _ Hrow) in Hdel.
    injection Hdel as <- <-. simpl.
    assert (Hgone : delete pk (rows w) !! pk = None) by apply lookup_delete_eq.
    split; [by apply get_object_missing|]. split; [done|]. split; [done|].
    intros Hseq reqs. apply get_object_missing.
    apply (run_ind (λ w, pk ≤ last_pk w ∧ rows w !! pk = None)).
    + intros w1 w2 Hw1 Hstep. by eapply step_absent.
    + simpl. split; [|done]. apply Hseq. eauto.
  - unfold TodoDeleteView_post, bind in Hdel.
    by rewrite (get_object_missing _ _ Hrow) in Hdel.
Qed.

(** C8, as the code has it. In every world reached from the empty one by
    any sequence of requests: if the clock never runs backwards, each row
    has [created_at] ≤ [updated_at]; and whatever the clock does, one more
    request leaves the [created_at] of every row it keeps as it was, a
    toggle or a valid update of a row stamps its [updated_at] with the
    clock reading of that request, and a valid create stamps the new row
    with two successive readings. *)
Theorem timestamps_invariant (reqs : list Request) (req : Request) :
  let w := run reqs empty_world in
  let w' := (handle req w).2 in
  (monotone_clock →
   ∀ pk row, rows w !! pk = Some row → created_at row ≤ updated_at row) ∧
  (∀ pk row row', rows w !! pk = Some row → rows w' !! pk = Some row' →
     created_at row' = created_at row) ∧
  (∀ pk row, rows w !! pk = Some row →
     (req = GET_toggle pk ∨
      ∃ data, req = POST_update pk data ∧ is_valid data = true) →
     ∃ row', rows w' !! pk = Some row' ∧ updated_at row' = now_at (ticks w)) ∧
  (∀ data, req = POST_create data → is_valid data = true →
     ∃ row', rows w' !! (last_pk w + 1) = Some row' ∧
             created_at row' = now_at (ticks w) ∧
             updated_at row' = now_at (S (ticks w))).
Proof.
  intros w w'.
  assert (Hseq : sequence_ok w) by apply sequence_ok_run.
  split_and!.
  - intros Hmono pk row Hrow.
    assert (Hok : timestamps_ok w).
    { apply (run_ind timestamps_ok); [|apply timestamps_ok_empty].
      intros. by eapply step_timestamps_ok. }
    by destruct (Hok _ _ Hrow).
  - intros pk row row'. apply step_created_at; [done|]. apply handle_step.
  - intros pk row Hrow [->|(data & -> & Hvalid)]; unfold w'; simpl.
    + rewrite (toggle_resolved_found _ _ _ Hrow). simpl.
      rewrite lookup_insert_eq. by eexists.
    + rewrite (update_post_found _ _ _ _ Hrow). unfold is_valid in Hvalid.
      destruct (TodoForm_clean data); [done|]. simpl.
      rewrite lookup_insert_eq. by eexists.
  - intros data -> Hvalid. unfold w'. simpl.
    rewrite create_post_run. unfold is_valid in Hvalid.
    destruct (TodoForm_clean data); [done|]. simpl.
    rewrite lookup_insert_eq. by eexists.
Qed.

End Properties.

(** ** Rows created at the same time: the table's backend *)




(** ** The title rule on concrete requests *)

(** C4, the claim as written fails both ways: a title of one space has
    length 1 and is refused as missing, with nothing stored; a title of 201
    code points that ends in two spaces is accepted and stored. *)
Lemma title_length_counterexample :
  (List.length (py " ") = 1%nat ∧
   TodoCreateView_post (clock := tick_clock) (titled " ") empty_world =
   (Done (Render_todo_form (py "Create") [(f_title, required)]), empty_world)) ∧
  (List.length padded_title = 201%nat ∧
   ∃ w', TodoCreateView_post (clock := tick_clock)
           (mkFormData (Some padded_title) None DateOmitted None) empty_world =
         (Done Redirect_todo_list, w') ∧
         title <$> rows w' !! 1 = Some (replicate 199 97%N)).
Proof.
  split.
  - split; reflexivity.
  - split; [reflexivity|]. eexists. split; vm_compute; reflexivity.
Qed.

(** ** A clock that steps back *)

(** C8, the claim as written fails. Under a clock whose third reading is
    earlier than its first two, a create followed by a toggle leaves the row
    with [created_at] = 100 and [updated_at] = 50: the state is reached by
    create and toggle alone, and [created_at] ≤ [updated_at] does not hold
    in it. *)
Lemma timestamps_stepping_back_counterexample :
  ∃ row,
    rows (run (clock := stepping_back_clock) (B := scan_backend)
            [POST_create buy_milk; GET_toggle 1] empty_world) !! 1 = Some row ∧
    created_at row = 100 ∧ updated_at row = 50 ∧
    ¬ created_at row ≤ updated_at row.
Proof.
  eexists. split; [reflexivity|]. split; [reflexivity|]. split; [reflexivity|].
  vm_compute. intros Hle. by apply Hle.
Qed.

(** ** The theorems at concrete requests *)

Lemma tick_clock_monotone : monotone_clock (clock := tick_clock).
Proof. intros m n Hmn. unfold now_at, tick_clock. lia. Defined.

Lemma get_queryset_filter_witness :
  get_queryset (B := scan_backend) (Some (py "done")) two_at_once =
  get_queryset (B := scan_backend) (Some (py "all")) two_at_once ∧
  get_queryset (B := scan_backend) None two_at_once =
  get_queryset (B := scan_backend) (Some (py "all")) two_at_once.
Proof.
  destruct (get_queryset_filter (B := scan_backend) two_at_once)
    as (_ & _ & _ & Hother).
  split; apply Hother; discriminate.
Defined.

Lemma title_validation_witness :
  (∃ errs, has_error f_title errs ∧
     TodoCreateView_post (clock := tick_clock) (titled "") one_todo =
     (Done (Render_todo_form (py "Create") errs), one_todo) ∧
     TodoUpdateView_post (clock := tick_clock) 1 (titled "") one_todo =
     (Done (Render_todo_form (py "Update") errs), one_todo)) ∧
  (∃ w', TodoCreateView_post (clock := tick_clock) buy_milk empty_world =
         (Done Redirect_todo_list, w') ∧
         size (rows w') = 1%nat).
Proof.
  split.
  - destruct (title_validation (clock := tick_clock) (titled "") one_todo)
      as [Hbad _].
    destruct Hbad as (errs & Herr & Hcreate & Hupdate); [by left|].
    exists errs. split; [exact Herr|]. split; [exact Hcreate|].
    apply Hupdate. vm_compute. eauto.
  - destruct (title_validation (clock := tick_clock) buy_milk empty_world)
      as [_ Hgood].
    destruct Hgood as (w' & pk & row & Hcreate & _ & _ & Hsize & _).
    + vm_compute. lia.
    + apply has_null_false. reflexivity.
    + apply has_null_false. reflexivity.
    + discriminate.
    + apply (sequence_ok_run (clock := tick_clock) (B := scan_backend) []).
    + exists w'. split; [exact Hcreate|exact Hsize].
Defined.

Lemma toggle_resolved_twice_witness :
  ∃ w2 t2, rows w2 !! 1 = Some t2 ∧ is_resolved t2 = false ∧
           updated_at t2 = now_at (Clock := tick_clock) 3.
Proof.
  destruct (toggle_resolved_twice (clock := tick_clock) 1
              (mkTodo (py "Buy milk") [] (Some 19999) false
                      (20000 * usec_per_day) (20000 * usec_per_day + 1))
              one_todo eq_refl)
    as (w1 & t1 & w2 & t2 & _ & _ & _ & _ & _ & Hrow2 & Hres2 & Hup2 & Hticks).
  exists w2, t2. split; [exact Hrow2|]. split; [exact Hres2|].
  rewrite Hup2, Hticks. reflexivity.
Defined.

Lemma delete_then_get_witness :
  get_object_or_404 1 (TodoDeleteView_post 1 one_todo).2 =
  (Http404, (TodoDeleteView_post 1 one_todo).2) ∧
  rows (TodoDeleteView_post 1 one_todo).2 = delete 1 (rows one_todo) ∧
  (get_object_or_404 1
     (run (clock := tick_clock) (B := scan_backend)
        [POST_create buy_milk; GET_toggle 1; POST_update 1 buy_milk]
        (TodoDeleteView_post 1 one_todo).2)).1 = Http404.
Proof.
  destruct (delete_then_get (clock := tick_clock) (B := scan_backend) 1
              Redirect_todo_list one_todo (TodoDeleteView_post 1 one_todo).2
              eq_refl)
    as (Hget & Hrows & _ & Hlater).
  split; [exact Hget|]. split; [exact Hrows|].
  rewrite Hlater; [reflexivity|].
  apply (sequence_ok_run (clock := tick_clock) (B := scan_backend)
           [POST_create buy_milk]).
Defined.

Lemma missing_key_not_found_witness :
  get_object_or_404 99999 one_todo = (Http404, one_todo) ∧
  toggle_resolved (clock := tick_clock) 99999 one_todo = (Http404, one_todo).
Proof.
  destruct (missing_key_not_found (clock := tick_clock) 99999 buy_milk one_todo
              eq_refl)
    as (Hget & _ & _ & _ & _ & Htoggle).
  split; [exact Hget|exact Htoggle].
Defined.

Lemma timestamps_invariant_witness :
  monotone_clock (clock := tick_clock) ∧
  (∃ row,
     rows (run (clock := tick_clock) (B := scan_backend)
             [POST_create buy_milk; GET_toggle 1; POST_create (titled "Second")]
             empty_world) !! 1 = Some row ∧
     created_at row ≤ updated_at row) ∧
  (∃ row',
     rows (run (clock := stepping_back_clock) (B := scan_backend)
             [POST_create buy_milk; GET_toggle 1] empty_world) !! 1 = Some row' ∧
     created_at row' = 100 ∧ updated_at row' = 50).
Proof.
  split; [exact tick_clock_monotone|]. split.
  - eexists. split; [reflexivity|].
    apply (proj1 (timestamps_invariant (clock := tick_clock) (B := scan_backend)
                    [POST_create buy_milk; GET_toggle 1; POST_create (titled "Second")]
                    (GET_toggle 1)) tick_clock_monotone 1).
    reflexivity.
  - destruct (timestamps_invariant (clock := stepping_back_clock) (B := scan_backend)
                [POST_create buy_milk] (GET_toggle 1))
      as (_ & Hcreated & Hupdated & _).
    destruct (Hupdated 1 (mkTodo (py "Buy milk") [] (Some 19999) false 100 101)
                eq_refl (or_introl eq_refl))
      as (row' & Hrow' & Hup).
    exists row'. split; [exact Hrow'|]. split; [|exact Hup].
    exact (Hcreated 1 _ row' eq_refl Hrow').
Defined.

Lemma toggle_resolved_frame_witness :
  ∃ w' t', toggle_resolved (clock := tick_clock) 1 one_todo =
           (Done Redirect_todo_list, w') ∧
           rows w' !! 1 = Some t' ∧ title t' = py "Buy milk" ∧
           is_resolved t' = true.
Proof.
  destruct (toggle_resolved_frame (clock := tick_clock) 1
              (mkTodo (py "Buy milk") [] (Some 19999) false
                      (20000 * usec_per_day) (20000 * usec_per_day + 1))
              one_todo eq_refl)
    as (w' & t' & Htoggle & Hrow & Htitle & _ & _ & _ & Hres & _).
  exists w', t'. split; [exact Htoggle|]. split; [exact Hrow|].
  split; [exact Htitle|exact Hres].
Defined.

Lemma update_overwrites_fields_witness :
  ∃ w' row', TodoUpdateView_post (clock := tick_clock) 1
               (titled "Updated Title") one_todo =
             (Done Redirect_todo_list, w') ∧
             rows w' !! 1 = Some row' ∧
             due_date row' = None ∧ is_resolved row' = false.
Proof.
  destruct (update_overwrites_fields (clock := tick_clock) 1
              (mkTodo (py "Buy milk") [] (Some 19999) false
                      (20000 * usec_per_day) (20000 * usec_per_day + 1))
              (titled "Updated Title")
              (mkFields (py "Updated Title") [] None false)
              one_todo eq_refl eq_refl)
    as (w' & row' & Hpost & Hrow & _ & _ & _ & _ & _ & Hdue & Hres & _).
  exists w', row'. split; [exact Hpost|]. split; [exact Hrow|].
  split; [by apply Hdue|by apply Hres].
Defined.

(** ** The cases of tests.py *)

(** A clock that runs backwards at every reading orders the two stamps of
    a creation the wrong way round. *)
Remark backwards_clock_breaks_order :
  let w := run (clock := λ n, - Z.of_nat n) (B := scan_backend)
             [POST_create buy_milk] empty_world in
  (created_at <$> rows w !! 1) = Some 0 ∧ (updated_at <$> rows w !! 1) = Some (-1).
Proof. split; reflexivity. Qed.

(** [TodoModelTest]: a future due date is not overdue, a past one is, unless
    the record is resolved or has no due date. Today is day 20000. *)
Example test_is_overdue :
  let today w := (is_overdue (clock := tick_clock) w empty_world).1 in
  today (mkTodo (py "Test TODO") [] (Some 20007) false 0 0) = Done false ∧
  today (mkTodo (py "Test TODO") [] (Some 19999) false 0 0) = Done true ∧
  today (mkTodo (py "Test TODO") [] (Some 19999) true 0 0) = Done false ∧
  today (mkTodo (py "Test TODO") [] (Some 20000) false 0 0) = Done false ∧
  today (mkTodo (py "Test TODO") [] None false 0 0) = Done false.
Proof. repeat split; reflexivity. Qed.

(** [test_todo_ordering]: of two records created one after the other under
    a clock that advances, the second is listed first, whatever the backend. *)
Example test_todo_ordering :
  let w := run (clock := tick_clock) (B := scan_backend)
             [POST_create (titled "First TODO"); POST_create (titled "Second TODO")]
             empty_world in
  (∃ l, (get_queryset (B := scan_backend) None w).1 = Done l ∧ l.*1 = [2; 1]) ∧
  (∃ l, (get_queryset (B := reverse_scan_backend) None w).1 = Done l ∧
        l.*1 = [2; 1]).
Proof. split; eexists; split; vm_compute; reflexivity. Qed.

(** [TodoFormTest]: a form without title is invalid with an error on
    [title]; one with only the title is valid. *)
Example test_form :
  TodoForm_clean (mkFormData None (Some (py "Test description")) (DateValue 20000)
                    (Some false))
  = inl [(f_title, required)] ∧
  TodoForm_clean (mkFormData (Some (py "Test TODO")) (Some []) DateOmitted (Some false))
  = inr (mkFields (py "Test TODO") [] None false).
Proof. split; reflexivity. Qed.

(** [TodoListViewTest]: one active and one completed record. *)
Example test_list_view_filter :
  let w := run (clock := tick_clock) (B := scan_backend)
             [POST_create (mkFormData (Some (py "Active TODO")) None DateOmitted (Some false));
              POST_create (mkFormData (Some (py "Completed TODO")) None DateOmitted (Some true))]
             empty_world in
  let keys f := from_option (λ l, l.*1) []
                  (match (get_queryset (B := scan_backend) f w).1 with
                   | Done l => Some l | Http404 => None end) in
  keys None = [2; 1] ∧ keys (Some (py "resolved")) = [2] ∧
  keys (Some (py "unresolved")) = [1] ∧ keys (Some (py "other")) = [2; 1].
Proof. repeat split; vm_compute; reflexivity. Qed.

(** [TodoIntegrationTest]: create, update without due date, toggle, delete. *)
Example test_complete_todo_workflow :
  let go := run (clock := tick_clock) (B := scan_backend) in
  let w1 := go [POST_create buy_milk] empty_world in
  let w2 := go [POST_update 1 (titled "Updated Integration Test TODO")] w1 in
  let w3 := go [GET_toggle 1] w2 in
  let w4 := go [POST_delete 1] w3 in
  (fields_of <$> rows w1 !! 1) = Some (mkFields (py "Buy milk") [] (Some 19999) false) ∧
  (fields_of <$> rows w2 !! 1)
  = Some (mkFields (py "Updated Integration Test TODO") [] None false) ∧
  (is_resolved <$> rows w3 !! 1) = Some true ∧
  rows w4 = ∅ ∧
  (handle (clock := tick_clock) (B := scan_backend) (GET_toggle 1) w4).1 = Http404.
Proof. repeat split; vm_compute; reflexivity. Qed.

(** * Further properties *)

Section Further.

Context {clock : Clock} {B : Backend}.

(** ** Stripping *)

Lemma lstrip_snoc (s : str) (c : N) :
  isspace c = false → lstrip (s ++ [c]) = lstrip s ++ [c].
Proof.
  intros Hc. induction s as [|a s IH]; simpl.
  - by rewrite Hc.
  - by destruct (isspace a).
Qed.

Lemma lstrip_head (s : str) :
  match lstrip s with
  | c :: _ => isspace c = false
  | [] => True
  end.
Proof.
  induction s as [|a s IH]; simpl; [done|].
  destruct (isspace a) eqn:Ha; [done|]. exact Ha.
Qed.

Lemma rstrip_cons (c : N) (s : str) :
  isspace c = false → rstrip (c :: s) = c :: rstrip s.
Proof.
  intros Hc. unfold rstrip.
  by rewrite reverse_cons, lstrip_snoc, reverse_snoc.
Qed.

Lemma lstrip_idemp (s : str) : lstrip (lstrip s) = lstrip s.
Proof.
  induction s as [|a s IH]; simpl; [done|].
  destruct (isspace a) eqn:Ha; [done|]. simpl. by rewrite Ha.
Qed.

Lemma rstrip_idemp (s : str) : rstrip (rstrip s) = rstrip s.
Proof. unfold rstrip. by rewrite reverse_involutive, lstrip_idemp. Qed.

Lemma strip_idemp (s : str) : strip (strip s) = strip s.
Proof.
  unfold strip. pose proof (lstrip_head s) as Hhead.
  destruct (lstrip s) as [|c x]; [reflexivity|].
  rewrite (rstrip_cons c x Hhead). simpl. rewrite Hhead.
  by rewrite (rstrip_cons c _ Hhead), rstrip_idemp.
Qed.

(** ** Cleaning one text field *)

Lemma CharField_clean_cases (is_required : bool) (limit : option nat)
    (value : option str) :
  let t := CharField_to_python value in
  (CharField_clean is_required limit value = inr t ∧
   (is_required = true → t ≠ []) ∧
   (∀ n, limit = Some n → (List.length t ≤ n)%nat) ∧ 0%N ∉ t) ∨
  ((∃ c cs, CharField_clean is_required limit value = inl (c :: cs)) ∧
   ((is_required = true ∧ t = []) ∨
    (∃ n, limit = Some n ∧ (n < List.length t)%nat) ∨ 0%N ∈ t)).
Proof.
  intros t.
  destruct (decide (t = [])) as [Ht|Hne].
  - destruct is_required eqn:Hreq.
    + right. split; [|by left].
      unfold CharField_clean. fold t. rewrite decide_True by done. eauto.
    + left. split; [|split; [done|split]].
      * unfold CharField_clean. fold t. by rewrite decide_True by done.
      * intros n _. rewrite Ht. simpl. lia.
      * rewrite Ht. apply not_elem_of_nil.
  - destruct (decide (0%N ∈ t)) as [Hnul|Hnul].
    { right. split; [|right; by right].
      unfold CharField_clean. fold t. rewrite decide_False by done.
      unfold ProhibitNullCharactersValidator, has_null.
      rewrite (bool_decide_eq_true_2 _ Hnul).
      destruct (from_option _ _ _); simpl; eauto. }
    destruct limit as [n|].
    + destruct (decide (n < List.length t)%nat) as [Hlong|Hshort].
      * right. split; [|right; left; eauto].
        unfold CharField_clean. fold t. rewrite decide_False by done. simpl.
        unfold MaxLengthValidator. rewrite decide_True by done. simpl. eauto.
      * left. split; [|split; [done|split; [|done]]].
        -- apply CharField_clean_valid; fold t; [done| |done].
           intros ? [= <-]. lia.
        -- intros ? [= <-]. lia.
    + left. split; [|split; [done|split; [done|done]]].
      by apply CharField_clean_valid.
Qed.

Lemma title_clean_iff (value : option str) :
  let t := CharField_to_python value in
  (CharField_clean true (Some title_max_length) value = inr t ↔
   t ≠ [] ∧ (List.length t ≤ title_max_length)%nat ∧ 0%N ∉ t) ∧
  ((∃ c cs, CharField_clean true (Some title_max_length) value = inl (c :: cs)) ↔
   t = [] ∨ (title_max_length < List.length t)%nat ∨ 0%N ∈ t).
Proof.
  cbv zeta.
  pose proof (CharField_clean_cases true (Some title_max_length) value) as H.
  cbv zeta in H. set (t := CharField_to_python value) in *.
  destruct H as [(Hr & Hne & Hlen & Hnul)|((c & cs & Hl) & Hbad)].
  - specialize (Hne eq_refl). specialize (Hlen _ eq_refl). split.
    + done.
    + split.
      * intros (c & cs & Hl). congruence.
      * intros [?|[?|?]]; [done|lia|done].
  - assert (Hbad' : t = [] ∨ (title_max_length < List.length t)%nat ∨ 0%N ∈ t).
    { destruct Hbad as [[_ ?]|[(n & [= <-] & ?)|?]]; eauto. }
    split.
    + split; [congruence|]. intros (? & ? & ?).
      destruct Hbad' as [?|[?|?]]; [done|lia|done].
    + split; eauto.
Qed.

Lemma description_clean_iff (value : option str) :
  let d := CharField_to_python value in
  (CharField_clean false None value = inr d ↔ 0%N ∉ d) ∧
  ((∃ c cs, CharField_clean false None value = inl (c :: cs)) ↔ 0%N ∈ d).
Proof.
  cbv zeta.
  pose proof (CharField_clean_cases false None value) as H.
  cbv zeta in H. set (d := CharField_to_python value) in *.
  destruct H as [(Hr & _ & _ & Hnul)|((c & cs & Hl) & Hbad)].
  - split; [done|]. split; [|done]. intros (? & ? & ?). congruence.
  - assert (Hnul : 0%N ∈ d).
    { by destruct Hbad as [[? _]|[(n & ? & _)|?]]. }
    split; [split; [congruence|done]|]. split; eauto.
Qed.

Lemma form_errors_eq (data : FormData) :
  form_errors data =
  field_errors f_title
    (CharField_clean true (Some title_max_length) (data_title data)) ++
  field_errors f_description (CharField_clean false None (data_description data)) ++
  field_errors f_due_date (DateField_clean (data_due_date data)).
Proof.
  unfold form_errors, TodoForm_clean.
  destruct (CharField_clean true _ _), (CharField_clean false _ _),
    (DateField_clean _); reflexivity.
Qed.

Lemma has_error_field_errors {A} (f g : Field) (r : list ErrorCode + A) :
  has_error f (field_errors g r) ↔ f = g ∧ ∃ c cs, r = inl (c :: cs).
Proof.
  unfold has_error, field_errors. destruct r as [codes|a].
  - split.
    + intros (c & Hc). apply list_elem_of_fmap in Hc as (c' & [= -> ->] & Hin).
      split; [done|]. destruct codes as [|c0 cs]; [by apply elem_of_nil in Hin|].
      eauto.
    + intros (-> & c & cs & [= ->]). exists c. simpl. apply list_elem_of_here.
  - split.
    + intros (c & Hc). by apply elem_of_nil in Hc.
    + by intros (_ & ? & ? & ?).
Qed.

Lemma has_error_app (f : Field) (e1 e2 : Errors) :
  has_error f (e1 ++ e2) ↔ has_error f e1 ∨ has_error f e2.
Proof.
  unfold has_error. setoid_rewrite elem_of_app. split.
  - intros (c & [?|?]); eauto.
  - intros [(c & ?)|(c & ?)]; eauto.
Qed.

(** ** The form *)

Lemma to_python_stripped (value : option str) :
  strip (CharField_to_python value) = CharField_to_python value.
Proof. destruct value as [s|]; simpl; [apply strip_idemp|reflexivity]. Qed.

Lemma TodoForm_clean_inr_ok (data : FormData) (c : Fields) :
  TodoForm_clean data = inr c →
  c_title c ≠ [] ∧ (List.length (c_title c) ≤ title_max_length)%nat ∧
  clean_text (c_title c) ∧ clean_text (c_description c).
Proof.
  intros Hclean.
  destruct (TodoForm_clean_inr _ _ Hclean) as (Ht & Hd & _ & _).
  revert Hclean. unfold TodoForm_clean.
  destruct (CharField_clean true _ _) as [|t'] eqn:Hct; [done|].
  destruct (CharField_clean false _ _) as [|d'] eqn:Hcd; [done|].
  destruct (DateField_clean _) as [|dd] eqn:Hdd; [done|]. intros _.
  pose proof (CharField_clean_inr _ _ _ _ Hct) as ->.
  pose proof (CharField_clean_inr _ _ _ _ Hcd) as ->.
  apply (proj1 (title_clean_iff _)) in Hct as (? & ? & ?).
  apply (proj1 (description_clean_iff _)) in Hcd.
  unfold clean_text. rewrite Ht, Hd, !to_python_stripped. done.
Qed.

(** X1. A bound form is valid exactly when the stripped title has 1 to 200
    code points and no NUL, the stripped description has no NUL and the due
    date is not malformed. *)
Theorem is_valid_iff (data : FormData) :
  let t := CharField_to_python (data_title data) in
  let d := CharField_to_python (data_description data) in
  is_valid data = true ↔
  t ≠ [] ∧ (List.length t ≤ title_max_length)%nat ∧ (0%N ∉ t) ∧ (0%N ∉ d) ∧
  data_due_date data ≠ DateMalformed.
Proof.
  intros t d. unfold is_valid. split.
  - destruct (TodoForm_clean data) as [|c] eqn:Hclean; [done|]. intros _.
    revert Hclean. unfold TodoForm_clean.
    destruct (CharField_clean true _ _) as [|t'] eqn:Ht; [done|].
    destruct (CharField_clean false _ _) as [|d'] eqn:Hd; [done|].
    destruct (DateField_clean _) as [|dd] eqn:Hdd; [done|]. intros _.
    pose proof (CharField_clean_inr _ _ _ _ Ht) as ->.
    pose proof (CharField_clean_inr _ _ _ _ Hd) as ->.
    apply (proj1 (title_clean_iff _)) in Ht as (? & ? & ?).
    apply (proj1 (description_clean_iff _)) in Hd.
    split_and!; try done. intros Hmal. by rewrite Hmal in Hdd.
  - intros (Hne & Hlen & Hnul & Hdnul & Hdate).
    destruct (TodoForm_clean_valid data Hne Hlen Hnul Hdnul Hdate)
      as (dd & _ & ->). done.
Qed.

(** X2. The errors of a form name their cause: there is an error on [title]
    exactly when the stripped title is empty, longer than 200 code points
    or holds a NUL, one on [description] exactly when the stripped
    description holds a NUL, one on [due_date] exactly when the date is
    malformed, and never one on [is_resolved]. *)
Theorem form_errors_by_field (data : FormData) :
  let t := CharField_to_python (data_title data) in
  let d := CharField_to_python (data_description data) in
  (has_error f_title (form_errors data) ↔
   t = [] ∨ (title_max_length < List.length t)%nat ∨ 0%N ∈ t) ∧
  (has_error f_description (form_errors data) ↔ 0%N ∈ d) ∧
  (has_error f_due_date (form_errors data) ↔ data_due_date data = DateMalformed) ∧
  ¬ has_error f_is_resolved (form_errors data).
Proof.
  intros t d. rewrite form_errors_eq.
  rewrite !has_error_app, !has_error_field_errors.
  pose proof (proj2 (title_clean_iff (data_title data))) as Ht.
  pose proof (proj2 (description_clean_iff (data_description data))) as Hd.
  assert (Hdd : (∃ c cs, DateField_clean (data_due_date data) = inl (c :: cs))
                ↔ data_due_date data = DateMalformed).
  { destruct (data_due_date data); simpl; split; try done.
    - by intros (? & ? & ?).
    - by intros (? & ? & ?).
    - eauto. }
  simpl in Ht, Hd. fold t in Ht. fold d in Hd.
  split_and!.
  - rewrite <- Ht. intuition congruence.
  - rewrite <- Hd. intuition congruence.
  - rewrite <- Hdd. intuition congruence.
  - intuition congruence.
Qed.

(** X3. A form that is not valid writes nothing: creating renders the form
    again with at least one error, so does updating an existing record, and
    the world (rows, key sequence and clock readings) is as before. *)
Theorem invalid_form_writes_nothing (data : FormData) (w : World) :
  is_valid data = false →
  ∃ err errs,
    form_errors data = err :: errs ∧
    TodoCreateView_post data w =
    (Done (Render_todo_form (py "Create") (err :: errs)), w) ∧
    ∀ pk, is_Some (rows w !! pk) →
      TodoUpdateView_post pk data w =
      (Done (Render_todo_form (py "Update") (err :: errs)), w).
Proof.
  unfold is_valid. intros Hinv.
  assert (Herrs : ∃ err errs, TodoForm_clean data = inl (err :: errs)).
  { revert Hinv. unfold TodoForm_clean.
    destruct (CharField_clean_cases true (Some title_max_length) (data_title data))
      as [(-> & _)|((c & cs & ->) & _)]; [|simpl; eauto].
    destruct (CharField_clean_cases false None (data_description data))
      as [(-> & _)|((c & cs & ->) & _)]; [|simpl; eauto].
    destruct (data_due_date data); simpl; [done|done|eauto]. }
  destruct Herrs as (err & errs & Hclean).
  exists err, errs. split; [unfold form_errors; by rewrite Hclean|]. split.
  - by rewrite create_post_run, Hclean.
  - intros pk [row Hrow]. by rewrite (update_post_found _ _ _ _ Hrow), Hclean.
Qed.

(** ** What a request writes *)




(** X5. Deleting an existing record removes that key and nothing else: every
    other key reads as before, the table has one row less, the key sequence
    is not moved and the clock is not read. *)
Theorem delete_frame (pk : Z) (row : Todo) (w : World) :
  rows w !! pk = Some row →
  ∃ w', TodoDeleteView_post pk w = (Done Redirect_todo_list, w') ∧
        rows w' !! pk = None ∧
        (∀ pk', pk' ≠ pk → rows w' !! pk' = rows w !! pk') ∧
        S (size (rows w')) = size (rows w) ∧
        last_pk w' = last_pk w ∧ ticks w' = ticks w.
Proof.
  intros Hrow. eexists. split; [by eapply delete_post_found|]. simpl.
  split; [apply lookup_delete_eq|]. split.
  - intros pk' Hne. by rewrite lookup_delete_ne.
  - split; [|done]. rewrite map_size_delete, Hrow. simpl.
    assert (size (rows w) ≠ 0%nat); [|lia].
    apply map_size_ne_0_lookup_2 with pk. eauto.
Qed.

(** X6. A valid update of an existing record writes that row only: every
    other key reads as before, the set of keys and the key sequence are
    unchanged, and the clock is read once. *)
Theorem update_frame (pk : Z) (row : Todo) (data : FormData) (w : World) :
  rows w !! pk = Some row →
  is_valid data = true →
  ∃ w', TodoUpdateView_post pk data w = (Done Redirect_todo_list, w') ∧
        (∀ pk', pk' ≠ pk → rows w' !! pk' = rows w !! pk') ∧
        dom (rows w') = dom (rows w) ∧
        last_pk w' = last_pk w ∧ ticks w' = S (ticks w).
Proof.
  intros Hrow Hvalid. unfold is_valid in Hvalid.
  rewrite (update_post_found _ _ _ _ Hrow).
  destruct (TodoForm_clean data) as [|c]; [done|].
  eexists. split; [reflexivity|]. simpl. split_and!; try done.
  - intros pk' Hne. by rewrite lookup_insert_ne.
  - by apply dom_insert_lookup_L.
Qed.

Lemma step_keys (w w' : World) :
  step w w' →
  (∀ pk, is_Some (rows w !! pk) → 1 ≤ pk ≤ last_pk w) ∧
  (size (rows w) ≤ Z.to_nat (last_pk w))%nat ∧ 0 ≤ last_pk w →
  (∀ pk, is_Some (rows w' !! pk) → 1 ≤ pk ≤ last_pk w') ∧
  (size (rows w') ≤ Z.to_nat (last_pk w'))%nat ∧ 0 ≤ last_pk w'.
Proof.
  intros Hstep (Hkeys & Hsize & Hpos).
  destruct Hstep as [|new _ _|pk0 old new Hold _ _|pk0]; simpl.
  - done.
  - split_and!; [|rewrite map_size_insert|lia].
    + intros pk. rewrite lookup_insert. case_decide; [lia|].
      intros Hpk. specialize (Hkeys pk Hpk). lia.
    + destruct (rows w !! (last_pk w + 1)) eqn:Hnew; simpl; lia.
  - split_and!; [|rewrite map_size_insert_Some by eauto; lia|lia].
    intros pk. rewrite lookup_insert. case_decide; [|apply Hkeys].
    intros _. subst. apply Hkeys. eauto.
  - split_and!; [|rewrite map_size_delete|lia].
    + intros pk. rewrite lookup_delete. case_decide; [by intros [? ?]|apply Hkeys].
    + destruct (rows w !! pk0); simpl; lia.
Qed.

(** X7. In every world reached from the empty one, every key of the table
    is at least 1 and at most the last key handed out, the table has no
    more rows than keys were handed out, and further requests never move
    the key sequence back. *)
Theorem keys_within_sequence (reqs more : list Request) :
  let w := run reqs empty_world in
  (∀ pk, is_Some (rows w !! pk) → 1 ≤ pk ≤ last_pk w) ∧
  (size (rows w) ≤ Z.to_nat (last_pk w))%nat ∧
  last_pk w ≤ last_pk (run more w).
Proof.
  intros w.
  assert (Hinv : (∀ pk, is_Some (rows w !! pk) → 1 ≤ pk ≤ last_pk w) ∧
                 (size (rows w) ≤ Z.to_nat (last_pk w))%nat ∧ 0 ≤ last_pk w).
  { apply (run_ind (λ w, (∀ pk, is_Some (rows w !! pk) → 1 ≤ pk ≤ last_pk w) ∧
                         (size (rows w) ≤ Z.to_nat (last_pk w))%nat ∧
                         0 ≤ last_pk w)).
    - intros w1 w2 Hw1 Hstep. by eapply step_keys.
    - simpl. split_and!; [|by rewrite map_size_empty|done].
      intros pk [row Hrow]. by rewrite lookup_empty in Hrow. }
  destruct Hinv as (Hkeys & Hsize & _). split; [done|]. split; [done|].
  apply (run_ind (λ w', last_pk w ≤ last_pk w')); [|done].
  intros w1 w2 Hw1 Hstep.
  destruct Hstep as [|new _ _|pk0 old new Hold _ _|pk0]; simpl; lia.
Qed.

(** X8. Nothing makes a record unique: the same valid form posted twice
    creates two rows, under the next two keys, with the same title,
    description, due date and resolved flag. *)
Theorem create_twice (data : FormData) (w : World) :
  is_valid data = true →
  sequence_ok w →
  ∃ w1 w2 row1 row2,
    TodoCreateView_post data w = (Done Redirect_todo_list, w1) ∧
    TodoCreateView_post data w1 = (Done Redirect_todo_list, w2) ∧
    rows w2 !! (last_pk w + 1) = Some row1 ∧
    rows w2 !! (last_pk w + 2) = Some row2 ∧
    fields_of row1 = fields_of row2 ∧
    size (rows w2) = S (S (size (rows w))).
Proof.
  intros Hvalid Hseq. unfold is_valid in Hvalid.
  assert (Hfree : ∀ k, 0 < k → rows w !! (last_pk w + k) = None).
  { intros k Hk. destruct (rows w !! (last_pk w + k)) eqn:Hrow; [|done].
    assert (last_pk w + k ≤ last_pk w) by (apply Hseq; eauto). lia. }
  rewrite create_post_run.
  destruct (TodoForm_clean data) as [|c] eqn:Hclean; [done|].
  eexists _, _, _, _. split; [reflexivity|].
  rewrite create_post_run, Hclean. simpl. split; [reflexivity|]. simpl.
  replace (last_pk w + 1 + 1) with (last_pk w + 2) by lia.
  split; [rewrite lookup_insert_ne by lia; by rewrite lookup_insert_eq|].
  split; [by rewrite lookup_insert_eq|]. split; [done|].
  rewrite map_size_insert_None, map_size_insert_None; [done|by apply Hfree|].
  rewrite lookup_insert_ne by lia. by apply Hfree.
Qed.

(** ** What the table holds *)

Lemma run_handle_ind (P : World → Prop) :
  (∀ req w, P w → P (handle req w).2) →
  ∀ reqs w, P w → P (run reqs w).
Proof.
  intros Hstep reqs. induction reqs as [|req reqs IH]; intros w Hw; [done|].
  simpl. by apply IH, Hstep.
Qed.

Lemma handle_rows (req : Request) (w : World) (pk : Z) (row' : Todo) :
  rows (handle req w).2 !! pk = Some row' →
  rows w !! pk = Some row' ∨
  (∃ data c, TodoForm_clean data = inr c ∧
             title row' = c_title c ∧ description row' = c_description c) ∨
  (∃ row, rows w !! pk = Some row ∧
          title row' = title row ∧ description row' = description row).
Proof.
  destruct req as [f| |data|pk0|pk0 data|pk0|pk0|pk0]; simpl.
  - unfold TodoListView_get, bind.
    destruct (get_queryset_query f w) as [p ->]. simpl. by left.
  - by left.
  - rewrite create_post_run.
    destruct (TodoForm_clean data) as [|c] eqn:Hclean; simpl; [by left|].
    rewrite lookup_insert. case_decide; [|by left].
    intros [= <-]. right; left. exists data, c.
    by rewrite construct_instance_cleaned.
  - unfold TodoUpdateView_get, bind, get_object_or_404.
    destruct (rows w !! pk0); simpl; by left.
  - destruct (rows w !! pk0) as [row|] eqn:Hrow.
    + rewrite (update_post_found _ _ _ _ Hrow).
      destruct (TodoForm_clean data) as [|c] eqn:Hclean; simpl; [by left|].
      rewrite lookup_insert. case_decide; [|by left].
      intros [= <-]. right; left. exists data, c.
      by rewrite construct_instance_cleaned.
    + unfold TodoUpdateView_post, bind.
      rewrite (get_object_missing _ _ Hrow). simpl. by left.
  - unfold TodoDeleteView_get, bind, get_object_or_404.
    destruct (rows w !! pk0); simpl; by left.
  - destruct (rows w !! pk0) as [row|] eqn:Hrow.
    + rewrite (delete_post_found _ _ _ Hrow). simpl.
      rewrite lookup_delete. case_decide; [done|by left].
    + unfold TodoDeleteView_post, bind.
      rewrite (get_object_missing _ _ Hrow). simpl. by left.
  - destruct (rows w !! pk0) as [row|] eqn:Hrow.
    + rewrite (toggle_resolved_found _ _ _ Hrow). simpl.
      rewrite lookup_insert. case_decide; [|by left].
      intros [= <-]. subst. right; right. by exists row.
    + unfold toggle_resolved, bind.
      rewrite (get_object_missing _ _ Hrow). simpl. by left.
Qed.

Lemma rows_clean (reqs : list Request) (pk : Z) (row : Todo) :
  rows (run reqs empty_world) !! pk = Some row → clean_row row.
Proof.
  revert pk row.
  apply (run_handle_ind (λ w, ∀ pk row, rows w !! pk = Some row → clean_row row)).
  - intros req w IH pk row' Hrow'.
    destruct (handle_rows _ _ _ _ Hrow')
      as [Hold|[(data & c & Hclean & Ht & Hd)|(row & Hold & Ht & Hd)]].
    + by eapply IH.
    + unfold clean_row. rewrite Ht, Hd. by eapply TodoForm_clean_inr_ok.
    + specialize (IH _ _ Hold). unfold clean_row in *. by rewrite Ht, Hd.
  - intros pk row Hrow. simpl in Hrow. by rewrite lookup_empty in Hrow.
Qed.

Lemma resubmit_clean (c : Fields) :
  c_title c ≠ [] → (List.length (c_title c) ≤ title_max_length)%nat →
  clean_text (c_title c) → clean_text (c_description c) →
  TodoForm_clean (resubmit c) = inr c.
Proof.
  intros Hne Hlen [Hts Htn] [Hds Hdn].
  destruct (TodoForm_clean_valid (resubmit c)) as (dd & Hdd & ->); simpl.
  - by rewrite Hts.
  - by rewrite Hts.
  - by rewrite Hts.
  - by rewrite Hds.
  - by destruct (c_due_date c).
  - rewrite Hts, Hds. destruct c as [t d [due|] r]; simpl in *; congruence.
Qed.

(** X9. In every world reached from the empty one, every row has a title
    that is not empty, has at most 200 code points, no NUL and no white
    space at either end, and a description with no NUL and no white space
    at either end; so [str(todo)] is never empty. *)
Theorem stored_rows_clean (reqs : list Request) (pk : Z) (row : Todo) :
  rows (run reqs empty_world) !! pk = Some row →
  Todo_str row ≠ [] ∧
  (1 ≤ List.length (title row) ≤ title_max_length)%nat ∧
  strip (title row) = title row ∧ (0%N ∉ title row) ∧
  strip (description row) = description row ∧ (0%N ∉ description row).
Proof.
  intros Hrow. destruct (rows_clean _ _ _ Hrow) as (Hne & Hlen & [? ?] & [? ?]).
  unfold Todo_str. split_and!; try done.
  destruct (title row); [done|simpl; lia].
Qed.

(** X10. Cleaning is idempotent: the cleaned values of a valid form, sent
    back as they are, are valid and clean to themselves. *)
Theorem clean_idempotent (data : FormData) (c : Fields) :
  TodoForm_clean data = inr c → TodoForm_clean (resubmit c) = inr c.
Proof.
  intros Hclean.
  destruct (TodoForm_clean_inr_ok _ _ Hclean) as (? & ? & ? & ?).
  by apply resubmit_clean.
Qed.

(** X11. In every world reached from the empty one, posting to the update
    view the values a row already holds goes through and leaves its title,
    description, due date, resolved flag and creation time as they were;
    only [updated_at] moves, to the clock reading of the request. *)
Theorem update_with_same_values (reqs : list Request) (pk : Z) (row : Todo) :
  let w := run reqs empty_world in
  rows w !! pk = Some row →
  ∃ w' row',
    TodoUpdateView_post pk (resubmit (fields_of row)) w = (Done Redirect_todo_list, w') ∧
    rows w' !! pk = Some row' ∧
    fields_of row' = fields_of row ∧
    created_at row' = created_at row ∧
    updated_at row' = now_at (ticks w).
Proof.
  intros w Hrow.
  destruct (rows_clean _ _ _ Hrow) as (Hne & Hlen & Ht & Hd).
  rewrite (update_post_found _ _ _ _ Hrow).
  rewrite (resubmit_clean (fields_of row)) by done.
  eexists _, _. split; [reflexivity|]. simpl.
  split; [by rewrite lookup_insert_eq|]. simpl.
  by rewrite construct_instance_cleaned.
Qed.

(** ** Listings *)

Lemma filter_split {A} (p : A → bool) (l : list A) :
  filter (λ x, p x = true) l ++ filter (λ x, negb (p x) = true) l ≡ₚ l.
Proof.
  induction l as [|a l IH]; [done|].
  rewrite !filter_cons.
  destruct (decide (p a = true)) as [Hp|Hp];
    destruct (decide (negb (p a) = true)) as [Hn|Hn].
  - rewrite Hp in Hn. done.
  - simpl. by rewrite IH.
  - rewrite <- Permutation_middle. by rewrite IH.
  - destruct (p a); done.
Qed.

Lemma filter_all {A} (l : list A) : filter (λ _ : A, true = true) l = l.
Proof.
  induction l as [|a l IH]; [done|].
  rewrite filter_cons. destruct (decide (true = true)); [|done]. by rewrite IH.
Qed.

(** X12. The listings under [resolved] and [unresolved] split the listing
    under [all]: put together they are a rearrangement of it, and the
    listing under [all] has as many entries as the table has rows. *)
Theorem listing_counts (w : World) :
  ∃ l_all l_res l_un,
    get_queryset (Some (py "all")) w = (Done l_all, w) ∧
    get_queryset (Some (py "resolved")) w = (Done l_res, w) ∧
    get_queryset (Some (py "unresolved")) w = (Done l_un, w) ∧
    l_res ++ l_un ≡ₚ l_all ∧
    List.length l_all = size (rows w) ∧
    (List.length l_res + List.length l_un)%nat = size (rows w).
Proof.
  eexists _, _, _. split; [reflexivity|]. split; [reflexivity|].
  split; [reflexivity|].
  assert (Hsplit :
    order_by_created_at_desc
      (filter (λ r : Z * Todo, is_resolved r.2 = true) (map_to_list (rows w))) ++
    order_by_created_at_desc
      (filter (λ r : Z * Todo, negb (is_resolved r.2) = true) (map_to_list (rows w)))
    ≡ₚ order_by_created_at_desc
         (filter (λ r : Z * Todo, true = true) (map_to_list (rows w)))).
  { rewrite !order_by_perm, filter_all.
    apply (filter_split (λ r : Z * Todo, is_resolved r.2)). }
  assert (Hall :
    List.length (order_by_created_at_desc
              (filter (λ r : Z * Todo, true = true) (map_to_list (rows w))))
    = size (rows w)).
  { rewrite order_by_perm, filter_all. apply length_map_to_list. }
  split; [exact Hsplit|]. split; [exact Hall|].
  rewrite <- Hall, <- Hsplit. by rewrite length_app.
Qed.

Lemma query_backend_independent (B1 B2 : Backend) (p : Todo → bool) (w : World) :
  distinct_created_at w → query (B := B1) p w = query (B := B2) p w.
Proof.
  intros Hdistinct. unfold query. do 2 f_equal.
  apply (StronglySorted_unique_strong newest_first).
  - intros [k1 r1] [k2 r2] H1 H2 H12 H21.
    rewrite order_by_perm, list_elem_of_filter, elem_of_map_to_list in H1.
    rewrite order_by_perm, list_elem_of_filter, elem_of_map_to_list in H2.
    destruct H1 as [_ H1]. destruct H2 as [_ H2].
    unfold newest_first in H12, H21. simpl in *.
    assert (k1 = k2) by (eapply Hdistinct; [exact H1|exact H2|lia]).
    subst. congruence.
  - apply Sorted_StronglySorted; [apply _|]. apply order_by_sorted.
  - apply Sorted_StronglySorted; [apply _|]. apply order_by_sorted.
  - by rewrite !order_by_perm.
Qed.

(** X13. When no two rows of the table were created at the same time, the
    listing under any filter is the same whatever the backend: the
    descending order on [created_at] leaves it no choice. *)
Theorem listing_backend_independent (B1 B2 : Backend) (f : option str) (w : World) :
  distinct_created_at w →
  get_queryset (B := B1) f w = get_queryset (B := B2) f w.
Proof.
  intros Hdistinct. unfold get_queryset.
  repeat case_decide; by apply query_backend_independent.
Qed.

Lemma step_keys_follow_creation (w w' : World) :
  strict_clock → step w w' →
  sequence_ok w ∧ keys_follow_creation w →
  sequence_ok w' ∧ keys_follow_creation w'.
Proof.
  intros Hstrict Hstep [Hseq [Hbefore Horder]].
  split; [by eapply step_sequence_ok|].
  destruct Hstep as [|new Hc _|pk0 old new Hold Hc _|pk0]; simpl.
  - done.
  - split.
    + intros pk row. simpl. rewrite lookup_insert. case_decide.
      * intros [= <-] n Hn. rewrite Hc. apply Hstrict. lia.
      * intros Hrow n Hn. eapply Hbefore; [exact Hrow|lia].
    + intros pk1 pk2 row1 row2. simpl. rewrite !lookup_insert.
      repeat case_decide; subst.
      * lia.
      * intros _ Hrow2 Hlt.
        assert (pk2 ≤ last_pk w) by (apply Hseq; eauto). lia.
      * intros Hrow1 [= <-] _. rewrite Hc. eapply Hbefore; [exact Hrow1|lia].
      * apply Horder.
  - split.
    + intros pk row. simpl. rewrite lookup_insert. case_decide.
      * intros [= <-] n Hn. rewrite Hc. eapply Hbefore; [exact Hold|lia].
      * intros Hrow n Hn. eapply Hbefore; [exact Hrow|lia].
    + intros pk1 pk2 row1 row2. simpl. rewrite !lookup_insert.
      repeat case_decide; subst.
      * lia.
      * intros [= <-] Hrow2 Hlt. rewrite Hc. by eapply Horder.
      * intros Hrow1 [= <-] Hlt. rewrite Hc. by eapply Horder.
      * apply Horder.
  - split.
    + intros pk row. simpl. rewrite lookup_delete. case_decide; [done|].
      apply Hbefore.
    + intros pk1 pk2 row1 row2. simpl. rewrite !lookup_delete.
      repeat case_decide; try done. apply Horder.
Qed.

(** X14. Under a clock that advances at every reading, in every world
    reached from the empty one the listing under any filter runs from the
    last key created to the first: an entry that comes earlier has the
    larger key and the later [created_at]. *)
Theorem listing_newest_key_first (reqs : list Request) (f : option str) :
  strict_clock →
  let w := run reqs empty_world in
  ∃ l, get_queryset f w = (Done l, w) ∧
       ∀ i j x y, l !! i = Some x → l !! j = Some y → (i < j)%nat →
                  y.1 < x.1 ∧ created_at y.2 < created_at x.2.
Proof.
  intros Hstrict w.
  assert (Hinv : sequence_ok w ∧ keys_follow_creation w).
  { apply (run_ind (λ w, sequence_ok w ∧ keys_follow_creation w)).
    - intros w1 w2 Hw1 Hstep. by eapply step_keys_follow_creation.
    - split; [apply (sequence_ok_run [])|].
      split; intros *; simpl; by rewrite lookup_empty. }
  destruct Hinv as [_ [_ Horder]].
  destruct (get_queryset_query f w) as [p ->].
  eexists. split; [reflexivity|].
  intros i j [k1 r1] [k2 r2] Hi Hj Hlt. simpl.
  assert (Hsorted : created_at r2 ≤ created_at r1).
  { change (newest_first (k1, r1) (k2, r2)).
    eapply (StronglySorted_lookup newest_first); [|exact Hi|exact Hj|exact Hlt].
    apply Sorted_StronglySorted; [apply _|]. apply order_by_sorted. }
  pose proof (list_elem_of_lookup_2 _ _ _ Hi) as H1.
  pose proof (list_elem_of_lookup_2 _ _ _ Hj) as H2.
  apply query_elem in H1 as [H1 _]. apply query_elem in H2 as [H2 _].
  assert (Hne : k1 ≠ k2).
  { intros ->. assert (r1 = r2) by congruence. subst.
    pose proof (NoDup_lookup _ i j (k2, r2) (query_NoDup p w) Hi Hj). lia. }
  destruct (decide (k1 < k2)) as [Hk|Hk].
  - pose proof (Horder _ _ _ _ H1 H2 Hk). lia.
  - assert (Hk' : k2 < k1) by lia.
    split; [done|]. by eapply Horder.
Qed.

Lemma query_elem_key (p : Todo → bool) (w : World) (pk : Z) :
  rows w !! pk = None →
  pk ∉ (order_by_created_at_desc
          (filter (λ r, p r.2 = true) (map_to_list (rows w)))).*1.
Proof.
  intros Hnone Hin. apply list_elem_of_fmap in Hin as ([k r] & -> & Hin).
  apply query_elem in Hin as [Hrow _]. simpl in Hnone. congruence.
Qed.

(** X15. After toggling an existing record, the record is listed under
    [resolved] exactly when it was unresolved before, under [unresolved]
    exactly when it was resolved before, and under [all] in either case. *)
Theorem listing_after_toggle (pk : Z) (row : Todo) (w : World) :
  rows w !! pk = Some row →
  ∃ w' row' l_all l_res l_un,
    toggle_resolved pk w = (Done Redirect_todo_list, w') ∧
    rows w' !! pk = Some row' ∧
    get_queryset (Some (py "all")) w' = (Done l_all, w') ∧
    get_queryset (Some (py "resolved")) w' = (Done l_res, w') ∧
    get_queryset (Some (py "unresolved")) w' = (Done l_un, w') ∧
    (pk, row') ∈ l_all ∧
    ((pk, row') ∈ l_res ↔ is_resolved row = false) ∧
    ((pk, row') ∈ l_un ↔ is_resolved row = true).
Proof.
  intros Hrow. rewrite (toggle_resolved_found _ _ _ Hrow).
  eexists _, _, _, _, _. split; [reflexivity|]. simpl.
  split; [by rewrite lookup_insert_eq|].
  split; [reflexivity|]. split; [reflexivity|]. split; [reflexivity|].
  split; [|split].
  - apply (query_elem (λ _, true)). simpl. by rewrite lookup_insert_eq.
  - rewrite (query_elem is_resolved). simpl. rewrite lookup_insert_eq.
    destruct (is_resolved row); simpl; split; try done; by intros [_ ?].
  - rewrite (query_elem (λ t, negb (is_resolved t))). simpl.
    rewrite lookup_insert_eq.
    destruct (is_resolved row); simpl; split; try done; by intros [_ ?].
Qed.

(** X16. After a delete that went through, no listing, under any filter,
    has an entry with the deleted key, and the listing under [all] is one
    entry shorter. *)
Theorem listing_after_delete (pk : Z) (r : Response) (w w' : World)
    (f : option str) :
  TodoDeleteView_post pk w = (Done r, w') →
  ∃ l l_all l_all',
    get_queryset f w' = (Done l, w') ∧ (pk ∉ l.*1) ∧
    get_queryset (Some (py "all")) w = (Done l_all, w) ∧
    get_queryset (Some (py "all")) w' = (Done l_all', w') ∧
    List.length l_all = S (List.length l_all').
Proof.
  intros Hdel. destruct (rows w !! pk) as [row|] eqn:Hrow.
  - rewrite (delete_post_found _ _ _ Hrow) in Hdel.
    injection Hdel as <- <-.
    destruct (get_queryset_query f
                (mkWorld (delete pk (rows w)) (last_pk w) (ticks w))) as [p ->].
    eexists _, _, _. split; [reflexivity|]. split.
    { apply query_elem_key. simpl. apply lookup_delete_eq. }
    split; [reflexivity|]. split; [reflexivity|]. simpl.
    rewrite !order_by_perm, !filter_all, !length_map_to_list.
    rewrite map_size_delete, Hrow. simpl.
    assert (size (rows w) ≠ 0%nat); [|lia].
    apply map_size_ne_0_lookup_2 with pk. eauto.
  - unfold TodoDeleteView_post, bind in Hdel.
    by rewrite (get_object_missing _ _ Hrow) in Hdel.
Qed.

(** X17. After a valid create in a world whose key sequence is ahead of
    the table, the new record is listed under [all], and under [resolved]
    or [unresolved] according to the checkbox; the listing under [all] is
    one entry longer. *)
Theorem listing_after_create (data : FormData) (w : World) :
  is_valid data = true →
  sequence_ok w →
  ∃ w' row l_all l_all' l_res l_un,
    TodoCreateView_post data w = (Done Redirect_todo_list, w') ∧
    rows w' !! (last_pk w + 1) = Some row ∧
    get_queryset (Some (py "all")) w = (Done l_all, w) ∧
    get_queryset (Some (py "all")) w' = (Done l_all', w') ∧
    get_queryset (Some (py "resolved")) w' = (Done l_res, w') ∧
    get_queryset (Some (py "unresolved")) w' = (Done l_un, w') ∧
    (last_pk w + 1, row) ∈ l_all' ∧
    List.length l_all' = S (List.length l_all) ∧
    ((last_pk w + 1, row) ∈ l_res ↔ data_is_resolved data = Some true) ∧
    ((last_pk w + 1, row) ∈ l_un ↔ data_is_resolved data ≠ Some true).
Proof.
  intros Hvalid Hseq. unfold is_valid in Hvalid.
  assert (Hfree : rows w !! (last_pk w + 1) = None).
  { destruct (rows w !! (last_pk w + 1)) eqn:Hrow; [|done].
    assert (last_pk w + 1 ≤ last_pk w) by (apply Hseq; eauto). lia. }
  rewrite create_post_run.
  destruct (TodoForm_clean data) as [|c] eqn:Hclean; [done|].
  destruct (TodoForm_clean_inr _ _ Hclean) as (_ & _ & _ & Hres).
  eexists _, _, _, _, _, _. split; [reflexivity|]. simpl.
  split; [by rewrite lookup_insert_eq|].
  split; [reflexivity|]. split; [reflexivity|].
  split; [reflexivity|]. split; [reflexivity|].
  rewrite construct_instance_cleaned. split_and!.
  - apply (query_elem (λ _, true)). simpl. by rewrite lookup_insert_eq.
  - rewrite !order_by_perm, !filter_all, !length_map_to_list.
    by apply map_size_insert_None.
  - rewrite (query_elem is_resolved). simpl. rewrite lookup_insert_eq, Hres.
    destruct (data_is_resolved data) as [[|]|]; simpl; split; try done;
      by intros [_ ?].
  - rewrite (query_elem (λ t, negb (is_resolved t))). simpl.
    rewrite lookup_insert_eq, Hres.
    destruct (data_is_resolved data) as [[|]|]; simpl; split; try done;
      by intros [_ ?].
Qed.

(** ** The overdue flag over time *)

Lemma date_of_lt (d : date) (t : datetime) :
  d < date_of t ↔ (d + 1) * usec_per_day ≤ t.
Proof.
  unfold date_of. assert (Hpos : 0 < usec_per_day) by done.
  pose proof (Z.mul_div_le t usec_per_day Hpos) as Hlow.
  split.
  - intros Hlt. nia.
  - intros Hle.
    assert (d + 1 ≤ t `div` usec_per_day); [|lia].
    apply Z.div_le_lower_bound; [done|lia].
Qed.

(** X18. For an unresolved record with a due date, the flag turns on at the
    midnight that ends the due day: it is false at every clock reading up
    to the last microsecond of that day and true from the first of the
    next. *)
Theorem is_overdue_threshold (self : Todo) (d : date) (w : World) :
  due_date self = Some d →
  is_resolved self = false →
  (is_overdue self w).1 =
  Done (bool_decide ((d + 1) * usec_per_day ≤ now_at (ticks w))).
Proof.
  intros Hd Hr. unfold is_overdue. rewrite Hd, Hr. simpl. f_equal.
  apply bool_decide_ext, date_of_lt.
Qed.

(** X19. With a clock that never runs backwards, a record that is overdue
    stays overdue at every later reading, as long as it is not changed. *)
Theorem is_overdue_persists (self : Todo) (w w' : World) :
  monotone_clock →
  (is_overdue self w).1 = Done true →
  (ticks w ≤ ticks w')%nat →
  (is_overdue self w').1 = Done true.
Proof.
  intros Hmono Hover Hticks. revert Hover. unfold is_overdue.
  destruct (due_date self) as [d|]; [|done].
  destruct (is_resolved self); [done|]. simpl.
  intros [= Hover]. f_equal.
  apply bool_decide_eq_true in Hover. apply bool_decide_eq_true.
  apply date_of_lt in Hover. apply date_of_lt.
  specialize (Hmono _ _ Hticks). lia.
Qed.

(** X20. Toggling an unresolved record, or updating a record with a valid
    form that carries no due date, stores a row that is not overdue at any
    time, and whose flag is read without reading the clock. *)
Theorem overdue_cleared (pk : Z) (row : Todo) (data : FormData) (w : World) :
  rows w !! pk = Some row →
  (is_resolved row = false →
   ∃ w' row', toggle_resolved pk w = (Done Redirect_todo_list, w') ∧
              rows w' !! pk = Some row' ∧
              ∀ v, is_overdue row' v = (Done false, v)) ∧
  (is_valid data = true → data_due_date data = DateOmitted →
   ∃ w' row', TodoUpdateView_post pk data w = (Done Redirect_todo_list, w') ∧
              rows w' !! pk = Some row' ∧
              ∀ v, is_overdue row' v = (Done false, v)).
Proof.
  intros Hrow. split.
  - intros Hres. rewrite (toggle_resolved_found _ _ _ Hrow).
    eexists _, _. split; [reflexivity|]. simpl.
    split; [by rewrite lookup_insert_eq|].
    intros v. unfold is_overdue. simpl. rewrite Hres. simpl.
    by destruct (due_date row).
  - intros Hvalid Hom. unfold is_valid in Hvalid.
    rewrite (update_post_found _ _ _ _ Hrow).
    destruct (TodoForm_clean data) as [|c] eqn:Hclean; [done|].
    destruct (TodoForm_clean_inr _ _ Hclean) as (_ & _ & Hdd & _).
    rewrite Hom in Hdd. simpl in Hdd. injection Hdd as Hdd.
    rewrite construct_instance_cleaned.
    eexists _, _. split; [reflexivity|]. simpl.
    split; [by rewrite lookup_insert_eq|].
    intros v. unfold is_overdue. simpl. by rewrite <- Hdd.
Qed.

End Further.

(** ** The further properties at concrete requests *)

Lemma invalid_form_writes_nothing_witness :
  ∃ err errs,
    TodoCreateView_post (clock := tick_clock) bad_date one_todo =
    (Done (Render_todo_form (py "Create") (err :: errs)), one_todo) ∧
    TodoUpdateView_post (clock := tick_clock) 1 bad_date one_todo =
    (Done (Render_todo_form (py "Update") (err :: errs)), one_todo).
Proof.
  destruct (invalid_form_writes_nothing (clock := tick_clock) bad_date one_todo
              eq_refl)
    as (err & errs & _ & Hcreate & Hupdate).
  exists err, errs. split; [exact Hcreate|]. apply Hupdate. vm_compute. eauto.
Defined.

Lemma delete_frame_witness :
  ∃ w', TodoDeleteView_post 1 one_todo = (Done Redirect_todo_list, w') ∧
        S (size (rows w')) = size (rows one_todo).
Proof.
  destruct (delete_frame 1
              (mkTodo (py "Buy milk") [] (Some 19999) false
                      (20000 * usec_per_day) (20000 * usec_per_day + 1))
              one_todo eq_refl)
    as (w' & Hdel & _ & _ & Hsize & _).
  exists w'. split; [exact Hdel|exact Hsize].
Defined.

Lemma update_frame_witness :
  ∃ w', TodoUpdateView_post (clock := tick_clock) 1 (titled "Updated Title")
          two_at_once = (Done Redirect_todo_list, w') ∧
        rows w' !! 2 = rows two_at_once !! 2.
Proof.
  destruct (update_frame (clock := tick_clock) 1
              (mkTodo (py "First TODO") [] None false 0 0)
              (titled "Updated Title") two_at_once eq_refl eq_refl)
    as (w' & Hpost & Hothers & _).
  exists w'. split; [exact Hpost|]. apply Hothers. lia.
Defined.

Lemma create_twice_witness :
  ∃ w2 row1 row2,
    rows w2 !! 1 = Some row1 ∧ rows w2 !! 2 = Some row2 ∧
    fields_of row1 = fields_of row2 ∧ size (rows w2) = 2%nat.
Proof.
  destruct (create_twice (clock := tick_clock) buy_milk empty_world eq_refl
              (sequence_ok_run (clock := tick_clock) (B := scan_backend) []))
    as (w1 & w2 & row1 & row2 & _ & _ & H1 & H2 & Hsame & Hsize).
  exists w2, row1, row2. split; [exact H1|]. split; [exact H2|].
  split; [exact Hsame|exact Hsize].
Defined.

Lemma stored_rows_clean_witness :
  ∃ row,
    rows (run (clock := tick_clock) (B := scan_backend)
            [POST_create (titled "  Buy milk  ")] empty_world) !! 1 = Some row ∧
    title row = py "Buy milk" ∧ strip (title row) = title row.
Proof.
  eexists. split; [reflexivity|]. split; [reflexivity|].
  apply (stored_rows_clean (clock := tick_clock) (B := scan_backend)
           [POST_create (titled "  Buy milk  ")] 1).
  reflexivity.
Defined.

Lemma clean_idempotent_witness :
  TodoForm_clean (resubmit (mkFields (py "Buy milk") [] (Some 19999) false)) =
  inr (mkFields (py "Buy milk") [] (Some 19999) false).
Proof.
  exact (clean_idempotent buy_milk _ eq_refl).
Defined.

Lemma update_with_same_values_witness :
  ∃ w' row',
    TodoUpdateView_post (clock := tick_clock) 1
      (resubmit (mkFields (py "Buy milk") [] (Some 19999) false)) one_todo =
    (Done Redirect_todo_list, w') ∧
    rows w' !! 1 = Some row' ∧
    fields_of row' = mkFields (py "Buy milk") [] (Some 19999) false.
Proof.
  destruct (update_with_same_values (clock := tick_clock) (B := scan_backend)
              [POST_create buy_milk] 1
              (mkTodo (py "Buy milk") [] (Some 19999) false
                      (20000 * usec_per_day) (20000 * usec_per_day + 1))
              eq_refl)
    as (w' & row' & Hpost & Hrow & Hfields & _).
  exists w', row'. split; [exact Hpost|]. split; [exact Hrow|exact Hfields].
Defined.

Lemma tick_clock_strict : strict_clock (clock := tick_clock).
Proof. intros m n Hmn. unfold now_at, tick_clock. lia. Defined.

Lemma tick_clock_distinct :
  distinct_created_at
    (run (clock := tick_clock) (B := scan_backend)
       [POST_create (titled "First TODO"); POST_create (titled "Second TODO")]
       empty_world).
Proof.
  intros pk1 pk2 row1 row2 H1 H2.
  apply elem_of_map_to_list in H1. apply elem_of_map_to_list in H2.
  remember (map_to_list _) as l eqn:Hl. vm_compute in Hl. subst l.
  rewrite !elem_of_cons, elem_of_nil in H1.
  rewrite !elem_of_cons, elem_of_nil in H2.
  destruct H1 as [[= -> ->]|[[= -> ->]|[]]];
    destruct H2 as [[= -> ->]|[[= -> ->]|[]]]; simpl; intros; done.
Defined.

Lemma listing_backend_independent_witness :
  get_queryset (B := scan_backend) None
    (run (clock := tick_clock) (B := scan_backend)
       [POST_create (titled "First TODO"); POST_create (titled "Second TODO")]
       empty_world) =
  get_queryset (B := reverse_scan_backend) None
    (run (clock := tick_clock) (B := scan_backend)
       [POST_create (titled "First TODO"); POST_create (titled "Second TODO")]
       empty_world).
Proof.
  exact (listing_backend_independent scan_backend reverse_scan_backend None _
           tick_clock_distinct).
Defined.

Lemma listing_newest_key_first_witness :
  strict_clock (clock := tick_clock) ∧
  ∃ l, get_queryset (B := reverse_scan_backend) None
         (run (clock := tick_clock) (B := reverse_scan_backend)
            [POST_create (titled "First TODO"); POST_create (titled "Second TODO")]
            empty_world) =
       (Done l,
        run (clock := tick_clock) (B := reverse_scan_backend)
          [POST_create (titled "First TODO"); POST_create (titled "Second TODO")]
          empty_world) ∧
       ∀ i j x y, l !! i = Some x → l !! j = Some y → (i < j)%nat →
                  y.1 < x.1 ∧ created_at y.2 < created_at x.2.
Proof.
  split; [exact tick_clock_strict|].
  exact (listing_newest_key_first (clock := tick_clock) (B := reverse_scan_backend)
           [POST_create (titled "First TODO"); POST_create (titled "Second TODO")]
           None tick_clock_strict).
Defined.

Lemma listing_after_toggle_witness :
  ∃ w' row' l_res,
    toggle_resolved (clock := tick_clock) 1 one_todo = (Done Redirect_todo_list, w') ∧
    get_queryset (B := scan_backend) (Some (py "resolved")) w' = (Done l_res, w') ∧
    (1, row') ∈ l_res.
Proof.
  destruct (listing_after_toggle (clock := tick_clock) (B := scan_backend) 1
              (mkTodo (py "Buy milk") [] (Some 19999) false
                      (20000 * usec_per_day) (20000 * usec_per_day + 1))
              one_todo eq_refl)
    as (w' & row' & l_all & l_res & l_un & Htoggle & _ & _ & Hres & _ & _ & Hin & _).
  exists w', row', l_res. split; [exact Htoggle|]. split; [exact Hres|].
  by apply Hin.
Defined.

Lemma listing_after_delete_witness :
  ∃ l, get_queryset (B := scan_backend) None (TodoDeleteView_post 1 two_at_once).2
       = (Done l, (TodoDeleteView_post 1 two_at_once).2) ∧ 1 ∉ l.*1.
Proof.
  destruct (listing_after_delete (B := scan_backend) 1 Redirect_todo_list
              two_at_once (TodoDeleteView_post 1 two_at_once).2 None eq_refl)
    as (l & l_all & l_all' & Hl & Hnot & _).
  exists l. split; [exact Hl|exact Hnot].
Defined.

Lemma listing_after_create_witness :
  ∃ w' row l_un,
    TodoCreateView_post (clock := tick_clock) buy_milk empty_world =
    (Done Redirect_todo_list, w') ∧
    get_queryset (B := scan_backend) (Some (py "unresolved")) w' = (Done l_un, w') ∧
    (1, row) ∈ l_un.
Proof.
  destruct (listing_after_create (clock := tick_clock) (B := scan_backend)
              buy_milk empty_world eq_refl
              (sequence_ok_run (clock := tick_clock) (B := scan_backend) []))
    as (w' & row & l_all & l_all' & l_res & l_un & Hpost & _ & _ & _ & _ & Hun
        & _ & _ & _ & Hin).
  exists w', row, l_un. split; [exact Hpost|]. split; [exact Hun|].
  apply Hin. discriminate.
Defined.

Lemma is_overdue_threshold_witness :
  (is_overdue (clock := tick_clock)
     (mkTodo (py "Buy milk") [] (Some 19999) false 0 0) empty_world).1 = Done true ∧
  (is_overdue (clock := tick_clock)
     (mkTodo (py "Buy milk") [] (Some 20000) false 0 0) empty_world).1 = Done false.
Proof.
  split.
  - exact (is_overdue_threshold (clock := tick_clock)
             (mkTodo (py "Buy milk") [] (Some 19999) false 0 0) 19999 empty_world
             eq_refl eq_refl).
  - exact (is_overdue_threshold (clock := tick_clock)
             (mkTodo (py "Buy milk") [] (Some 20000) false 0 0) 20000 empty_world
             eq_refl eq_refl).
Defined.

Lemma is_overdue_persists_witness :
  (is_overdue (clock := tick_clock)
     (mkTodo (py "Buy milk") [] (Some 19999) false 0 0) one_todo).1 = Done true.
Proof.
  apply (is_overdue_persists (clock := tick_clock)
           (mkTodo (py "Buy milk") [] (Some 19999) false 0 0) empty_world one_todo
           tick_clock_monotone eq_refl).
  vm_compute. lia.
Defined.

Lemma overdue_cleared_witness :
  (∃ w' row', toggle_resolved (clock := tick_clock) 1 one_todo =
              (Done Redirect_todo_list, w') ∧
              rows w' !! 1 = Some row' ∧
              is_overdue (clock := tick_clock) row' w' = (Done false, w')) ∧
  (∃ w' row', TodoUpdateView_post (clock := tick_clock) 1 (titled "Buy milk")
                one_todo = (Done Redirect_todo_list, w') ∧
              rows w' !! 1 = Some row' ∧
              is_overdue (clock := tick_clock) row' w' = (Done false, w')).
Proof.
  destruct (overdue_cleared (clock := tick_clock) 1
              (mkTodo (py "Buy milk") [] (Some 19999) false
                      (20000 * usec_per_day) (20000 * usec_per_day + 1))
              (titled "Buy milk") one_todo eq_refl)
    as [Htoggle Hupdate].
  split.
  - destruct (Htoggle eq_refl) as (w' & row' & H1 & H2 & H3).
    exists w', row'. split; [exact H1|]. split; [exact H2|apply H3].
  - destruct (Hupdate eq_refl eq_refl) as (w' & row' & H1 & H2 & H3).
    exists w', row'. split; [exact H1|]. split; [exact H2|apply H3].
Defined.
